(** * product_sync: a shallow embedding of the synchronisation engine

    The development follows the layout of the add-on:
    - [api_client]   : services/api_client.py   (retrying HTTP client)
    - [rate_limiter] : services/rate_limiter.py (token bucket and its adaptive variant)
    - [product_sync] : models/product_sync.py   (search, diff and write on products)
    - [sync_service] : services/sync_service.py (the reconciliation loop)

    Python [int] is [Z]; Python [float] is an exact rational [Q] (rounding is
    not modelled), except in [rate_limiter_binary64], where the token bucket
    is computed in binary64; [str] is [string]; a [dict] with string keys is
    a [gmap string _].  The network, the clock and the identifiers generated
    at run time are inputs of the functions that consult them. *)

From Stdlib Require Import ZArith QArith Qminmax Qpower Lia Lqa List DecimalString.
From Stdlib Require Import Floats.PrimFloat Floats.SpecFloat Floats.FloatOps.
From stdpp Require Import base option list gmap strings.

Local Open Scope string_scope.
Local Open Scope list_scope.
Local Open Scope Z_scope.

(** [str(n)] for a Python [int]. *)
Definition str_of_int (n : Z) : string := NilZero.string_of_int (Z.to_int n).

(* ===================================================================== *)
(** ** services/api_client.py *)
(* ===================================================================== *)
Module api_client.

(** What one call of [session.request] can give: a response (whose
    [json()] either parses, [Some], or raises [ValueError], [None]), or one
    of the [requests] exceptions, carried as [str(e)]. *)
Inductive outcome (J : Type) : Type :=
| Response (status_code : Z) (json : option J) (text : string)
| Timeout (msg : string)
| ConnectionError (msg : string)
| RequestException (msg : string).
Arguments Response {J} status_code json text.
Arguments Timeout {J} msg.
Arguments ConnectionError {J} msg.
Arguments RequestException {J} msg.

(** The result of [_make_request]: the parsed body ([None] is Python's
    [None]) or [APIClientError(message)]. *)
Inductive result (J : Type) : Type :=
| Return (payload : option J)
| Raise_APIClientError (message : string).
Arguments Return {J} payload.
Arguments Raise_APIClientError {J} message.

(** Observable effects of a run, in order. *)
Inductive event : Type :=
| Request (attempt : Z)
| Sleep (seconds : Q).

Record APIClient : Type := mkAPIClient {
  base_url : string;
  timeout : Z;
  max_retries : Z
}.

(** [2 ** (attempt - 1)] is an [int] for [attempt >= 1] and the float
    reciprocal power below; both are the rational [2 ^ (attempt - 1)]. *)
Definition _calculate_backoff (attempt : Z) : Q :=
  let base_delay := Qpower (2 # 1) (attempt - 1) in
  Qmin base_delay (60 # 1).

Definition _should_retry (self : APIClient) (status_code attempt : Z) : bool :=
  if max_retries self <=? attempt then false
  else if (500 <=? status_code) && (status_code <? 600) then true
  else if status_code =? 429 then true
  else if status_code =? 408 then true
  else false.

Definition client_error_msg (status_code : Z) (text : string) : string :=
  "Client error: " +:+ str_of_int status_code +:+ " - " +:+ text.

Definition exhausted_msg (self : APIClient) (last_exception : option string) : string :=
  let error_msg := "Request failed after " +:+ str_of_int (max_retries self) +:+ " attempts" in
  match last_exception with
  | Some e => error_msg +:+ ": " +:+ e
  | None => error_msg
  end.

Section make_request.
Context {J : Type}.
Variable self : APIClient.
(** The remote end: the outcome of the [attempt]-th call (1-based). *)
Variable net : Z -> outcome J.

(** The [while attempt < self.max_retries] loop.  [fuel] bounds the
    number of iterations; [None] means the bound was too small. *)
Fixpoint request_loop (fuel : nat) (attempt : Z) (last_exception : option string)
    (tr : list event) : option (result J * list event) :=
  if attempt <? max_retries self then
    match fuel with
    | O => None
    | S fuel' =>
      let attempt := attempt + 1 in
      let tr := tr ++ [Request attempt] in
      match net attempt with
      | Response status_code json text =>
        if (200 <=? status_code) && (status_code <? 300) then
          Some (Return json, tr)
        else if _should_retry self status_code attempt then
          let backoff := _calculate_backoff attempt in
          request_loop fuel' attempt last_exception (tr ++ [Sleep backoff])
        else
          Some (Raise_APIClientError (client_error_msg status_code text), tr)
      | Timeout e | ConnectionError e | RequestException e =>
        let last_exception := Some e in
        if attempt <? max_retries self then
          let backoff := _calculate_backoff attempt in
          request_loop fuel' attempt last_exception (tr ++ [Sleep backoff])
        else
          request_loop fuel' attempt last_exception tr
      end
    end
  else
    Some (Raise_APIClientError (exhausted_msg self last_exception), tr).

Definition _make_request : option (result J * list event) :=
  request_loop (Z.to_nat (max_retries self)) 0 None [].
End make_request.

(** Number of HTTP calls in a trace. *)
Definition is_request (e : event) : bool :=
  match e with Request _ => true | Sleep _ => false end.

Definition request_count (tr : list event) : Z :=
  Z.of_nat (length (List.filter is_request tr)).

(** The events of [n] retried attempts following attempt [a]. *)
Fixpoint retries_trace (a : Z) (n : nat) : list event :=
  match n with
  | O => []
  | S n => Request (a + 1) :: Sleep (_calculate_backoff (a + 1)) :: retries_trace (a + 1) n
  end.

(** The failures the policy table calls retryable. *)
Definition retryable {J : Type} (o : outcome J) : bool :=
  match o with
  | Response status_code _ _ =>
      ((500 <=? status_code) && (status_code <? 600))
      || (status_code =? 429) || (status_code =? 408)
  | _ => true
  end.

End api_client.

(* ===================================================================== *)
(** ** services/rate_limiter.py *)
(* ===================================================================== *)
Module rate_limiter.

(** Token counts and clock readings are exact rationals in this module:
    what is proved on it holds of the code where its float arithmetic is
    exact (whole token counts, refills at the same instant, the integer
    rate).  [rate_limiter_binary64] below has the rounding. *)

(** A call either completes with a value or raises [ZeroDivisionError]
    (the only exception these methods can raise); the object keeps the
    mutations made before the raise. *)
Inductive outcome (A : Type) : Type :=
| Ok (value : A)
| ZeroDivisionError.
Arguments Ok {A} value.
Arguments ZeroDivisionError {A}.

Record RateLimiter : Type := mkRateLimiter {
  rate : Z;
  per_seconds : Q;
  tokens : Q;
  max_tokens : Q;
  last_refill : Q
}.

(** [RateLimiter(rate, per_seconds)], built when the clock reads [now]. *)
Definition RateLimiter_init (rate : Z) (per_seconds : Q) (now : Q) : RateLimiter :=
  {| rate := rate;
     per_seconds := per_seconds;
     tokens := inject_Z rate;
     max_tokens := inject_Z rate;
     last_refill := now |}.

Definition set_tokens (self : RateLimiter) (t : Q) : RateLimiter :=
  {| rate := rate self; per_seconds := per_seconds self; tokens := t;
     max_tokens := max_tokens self; last_refill := last_refill self |}.

Definition set_last_refill (self : RateLimiter) (now : Q) : RateLimiter :=
  {| rate := rate self; per_seconds := per_seconds self; tokens := tokens self;
     max_tokens := max_tokens self; last_refill := now |}.

Definition set_rate (self : RateLimiter) (r : Z) : RateLimiter :=
  {| rate := r; per_seconds := per_seconds self; tokens := tokens self;
     max_tokens := max_tokens self; last_refill := last_refill self |}.

Definition set_max_tokens (self : RateLimiter) (m : Q) : RateLimiter :=
  {| rate := rate self; per_seconds := per_seconds self; tokens := tokens self;
     max_tokens := m; last_refill := last_refill self |}.

(** [_refill_tokens], with [now] the value [time.time()] returns.
    [None]: the division [self.rate / self.per_seconds] raised, before any
    assignment. *)
Definition _refill_tokens (self : RateLimiter) (now : Q) : option RateLimiter :=
  let elapsed := (now - last_refill self)%Q in
  if Qeq_bool (per_seconds self) 0 then None
  else
    let tokens_to_add := (elapsed * (inject_Z (rate self) / per_seconds self))%Q in
    let self := set_tokens self (Qmin (max_tokens self) (tokens self + tokens_to_add)) in
    Some (set_last_refill self now).

Definition _wait_time (self : RateLimiter) : outcome Q :=
  if Qle_bool 1 (tokens self) then Ok 0%Q
  else if rate self =? 0 then ZeroDivisionError
  else
    let time_per_token := (per_seconds self / inject_Z (rate self))%Q in
    let tokens_needed := (1 - tokens self)%Q in
    let wait_time := (tokens_needed * time_per_token)%Q in
    Ok wait_time.

(** [wait_if_needed]: [now] is the clock at the first refill and [now'] the
    clock at the refill that follows [time.sleep(wait_time)]. *)
Definition wait_if_needed (self : RateLimiter) (now now' : Q) : RateLimiter * outcome unit :=
  match _refill_tokens self now with
  | None => (self, ZeroDivisionError)
  | Some self =>
    match _wait_time self with
    | ZeroDivisionError => (self, ZeroDivisionError)
    | Ok wait_time =>
      if negb (Qle_bool wait_time 0) then
        match _refill_tokens self now' with
        | None => (self, ZeroDivisionError)
        | Some self => (set_tokens self (tokens self - 1), Ok tt)
        end
      else (set_tokens self (tokens self - 1), Ok tt)
    end
  end.

Definition try_acquire (self : RateLimiter) (now : Q) : RateLimiter * outcome bool :=
  match _refill_tokens self now with
  | None => (self, ZeroDivisionError)
  | Some self =>
    if Qle_bool 1 (tokens self) then (set_tokens self (tokens self - 1), Ok true)
    else (self, Ok false)
  end.

Definition get_tokens (self : RateLimiter) (now : Q) : RateLimiter * outcome Q :=
  match _refill_tokens self now with
  | None => (self, ZeroDivisionError)
  | Some self => (self, Ok (tokens self))
  end.

Definition reset (self : RateLimiter) (now : Q) : RateLimiter :=
  set_last_refill (set_tokens self (max_tokens self)) now.

(** One public call together with the clock readings it makes. *)
Inductive call : Type :=
| Wait_if_needed (now now' : Q)
| Try_acquire (now : Q)
| Get_tokens (now : Q)
| Reset (now : Q).

Definition step (self : RateLimiter) (c : call) : RateLimiter :=
  match c with
  | Wait_if_needed now now' => fst (wait_if_needed self now now')
  | Try_acquire now => fst (try_acquire self now)
  | Get_tokens now => fst (get_tokens self now)
  | Reset now => reset self now
  end.

Definition run (self : RateLimiter) (calls : list call) : RateLimiter :=
  fold_left step calls self.



(** *** AdaptiveRateLimiter(RateLimiter) *)
Record AdaptiveRateLimiter : Type := mkAdaptiveRateLimiter {
  base : RateLimiter;
  min_rate : Z;
  max_rate : Z;
  initial_rate : Z;
  success_count : Z
}.

Definition AdaptiveRateLimiter_init (rate min_rate max_rate : Z) (now : Q) : AdaptiveRateLimiter :=
  {| base := RateLimiter_init rate 1 now;
     min_rate := min_rate;
     max_rate := max_rate;
     initial_rate := rate;
     success_count := 0 |}.

Definition with_base (self : AdaptiveRateLimiter) (b : RateLimiter) (count : Z) : AdaptiveRateLimiter :=
  {| base := b; min_rate := min_rate self; max_rate := max_rate self;
     initial_rate := initial_rate self; success_count := count |}.

Definition report_success (self : AdaptiveRateLimiter) : AdaptiveRateLimiter :=
  let self := with_base self (base self) (success_count self + 1) in
  if 10 <=? success_count self then
    let b := set_rate (base self) (Z.min (max_rate self) (rate (base self) + 1)) in
    let b := set_max_tokens b (inject_Z (rate b)) in
    with_base self b 0
  else self.

Definition report_rate_limit_error (self : AdaptiveRateLimiter) : AdaptiveRateLimiter :=
  let b := set_rate (base self) (Z.max (min_rate self) (rate (base self) / 2)) in
  let b := set_max_tokens b (inject_Z (rate b)) in
  with_base self b 0.

Definition reset_to_initial (self : AdaptiveRateLimiter) (now : Q) : AdaptiveRateLimiter :=
  let b := set_rate (base self) (initial_rate self) in
  let b := set_max_tokens b (inject_Z (rate b)) in
  let b := set_tokens b (max_tokens b) in
  with_base self (set_last_refill b now) 0.

Inductive feedback : Type :=
| Report_success
| Report_rate_limit_error.

Definition feed (self : AdaptiveRateLimiter) (f : feedback) : AdaptiveRateLimiter :=
  match f with
  | Report_success => report_success self
  | Report_rate_limit_error => report_rate_limit_error self
  end.

Definition feed_all (self : AdaptiveRateLimiter) (fs : list feedback) : AdaptiveRateLimiter :=
  fold_left feed fs self.


Definition adaptive_inv (mn mx : Z) (s : AdaptiveRateLimiter) : Prop :=
  min_rate s = mn /\ max_rate s = mx
  /\ mn <= rate (base s) <= mx
  /\ 0 <= success_count s <= 9.

End rate_limiter.

(* ===================================================================== *)
(** ** Python values, the database and the effects of the ORM calls *)
(* ===================================================================== *)
Module python.

(** The scalars of a decoded JSON payload. *)
Inductive json : Type :=
| JNull
| JBool (b : bool)
| JInt (n : Z)
| JFloat (x : Q)
| JStr (s : string).

(** A field value: a JSON scalar or a [datetime] (seconds). *)
Inductive pyval : Type :=
| PJson (j : json)
| PDatetime (t : Z).
Coercion PJson : json >-> pyval.

Abbreviation PFalse := (PJson (JBool false)).
Abbreviation PTrue := (PJson (JBool true)).

(** What the host supplies: [repr] and parsing of floats, and the clock
    that the successive [fields.Datetime.now()] calls read. *)
Record runtime : Type := mkRuntime {
  float_repr : Q -> string;
  float_of_str : string -> option Q;
  clock : nat -> Z
}.

Inductive exn : Type :=
| ValueError
| TypeError
| AttributeError
| UserError
| ZeroDivisionError
| KeyError
| APIClientError (message : string).

(** [bool(v)] *)
Definition truthy (v : json) : bool :=
  match v with
  | JNull => false
  | JBool b => b
  | JInt n => negb (n =? 0)
  | JFloat x => negb (Qeq_bool x 0)
  | JStr s => negb (String.eqb s "")
  end.

Definition numeric (v : json) : option Q :=
  match v with
  | JBool b => Some (if b then 1%Q else 0%Q)
  | JInt n => Some (inject_Z n)
  | JFloat x => Some x
  | _ => None
  end.

(** [a == b] *)
Definition json_eq (a b : json) : bool :=
  match a, b with
  | JNull, JNull => true
  | JStr s, JStr t => String.eqb s t
  | _, _ =>
    match numeric a, numeric b with
    | Some x, Some y => Qeq_bool x y
    | _, _ => false
    end
  end.

Definition py_eq (a b : pyval) : bool :=
  match a, b with
  | PJson x, PJson y => json_eq x y
  | PDatetime s, PDatetime t => s =? t
  | _, _ => false
  end.

(** [v in [None, '']] *)
Definition is_blank (v : pyval) : bool :=
  match v with
  | PJson JNull => true
  | PJson (JStr s) => String.eqb s ""
  | _ => false
  end.

(** [d.get(key, default)] *)
Definition dict_get {A : Type} (d : gmap string A) (key : string) (dflt : A) : A :=
  default dflt (d !! key).

Section with_runtime.
Variable rt : runtime.

(** [str(v)] *)
Definition py_str (v : json) : string :=
  match v with
  | JNull => "None"
  | JBool true => "True"
  | JBool false => "False"
  | JInt n => str_of_int n
  | JFloat x => float_repr rt x
  | JStr s => s
  end.

(** [float(v)] *)
Definition py_float (v : json) : exn + Q :=
  match v with
  | JNull => inl TypeError
  | JBool b => inr (if b then 1%Q else 0%Q)
  | JInt n => inr (inject_Z n)
  | JFloat x => inr x
  | JStr s =>
    match float_of_str rt s with
    | Some x => inr x
    | None => inl ValueError
    end
  end.
End with_runtime.

End python.

Module orm.
Import python.

Record product : Type := mkProduct {
  id : Z;
  fields : gmap string pyval
}.

Inductive operation : Type := Op_create | Op_update | Op_skip | Op_delete | Op_error.
Inductive log_status : Type := St_success | St_error | St_warning.

(** A [product.sync.log] row.  Message texts, the payload snapshot and the
    timings are left out: nothing branches on them. *)
Record log_entry : Type := mkLog {
  log_operation : operation;
  log_status_ : log_status;
  log_product_id : option Z;
  log_external_id : string;
  log_external_sku : json;
  log_sync_batch_id : string
}.

(** The rows a cursor sees.  Products are kept in the order in which
    [search] returns them. *)
Record database : Type := mkDatabase {
  products : list product;
  logs : list log_entry
}.

(** [cr] is the open transaction, [committed] what the last commit left;
    identifiers come from a sequence that rollbacks do not rewind; [ticks]
    counts the clock readings made so far. *)
Record env : Type := mkEnv {
  cr : database;
  committed : database;
  next_id : Z;
  ticks : nat
}.

Inductive outcome (A : Type) : Type :=
| Ok (value : A)
| Raise (e : exn).
Arguments Ok {A} value.
Arguments Raise {A} e.

(** Computations that read and write the environment and may raise; the
    effects made before a raise stay. *)
Definition M (A : Type) : Type := env -> outcome A * env.

Definition ret {A : Type} (a : A) : M A := fun s => (Ok a, s).
Definition raise {A : Type} (e : exn) : M A := fun s => (Raise e, s).
Definition bind {A B : Type} (m : M A) (k : A -> M B) : M B :=
  fun s => match m s with
           | (Ok a, s') => k a s'
           | (Raise e, s') => (Raise e, s')
           end.
(** [try: m  except Exception as e: handler e] *)
Definition try_except {A : Type} (m : M A) (handler : exn -> M A) : M A :=
  fun s => match m s with
           | (Ok a, s') => (Ok a, s')
           | (Raise e, s') => handler e s'
           end.
Definition lift {A : Type} (r : exn + A) : M A :=
  match r with inl e => raise e | inr a => ret a end.

#[global] Instance M_ret : MRet M := @ret.
#[global] Instance M_bind : MBind M := fun A B k m => bind m k.

Definition get_db : M database := fun s => (Ok (cr s), s).
Definition put_db (d : database) : M unit :=
  fun s => (Ok tt, mkEnv d (committed s) (next_id s) (ticks s)).

(** [self.env.cr.commit()] and [self.env.cr.rollback()] *)
Definition commit : M unit :=
  fun s => (Ok tt, mkEnv (cr s) (cr s) (next_id s) (ticks s)).
Definition rollback : M unit :=
  fun s => (Ok tt, mkEnv (committed s) (committed s) (next_id s) (ticks s)).

(** [fields.Datetime.now()] *)
Definition Datetime_now (rt : runtime) : M Z :=
  fun s => (Ok (clock rt (ticks s)), mkEnv (cr s) (committed s) (next_id s) (S (ticks s))).

(** [getattr(record, name)]; a field never set reads [False]. *)
Definition getattr (p : product) (name : string) : pyval :=
  dict_get (fields p) name PFalse.

Definition browse (d : database) (pid : Z) : option product :=
  List.find (fun p => id p =? pid) (products d).

(** [Model.search([(name, '=', value)], limit=1)] *)
Definition search (name : string) (value : pyval) : M (option Z) :=
  d ← get_db;
  ret (option_map id
         (List.find (fun p => match fields p !! name with
                              | Some v => py_eq v value
                              | None => false
                              end) (products d))).

(** [values] written over the fields of the record [pid]. *)
Definition patch (pid : Z) (values : gmap string pyval) (p : product) : product :=
  if id p =? pid then mkProduct (id p) (values ∪ fields p) else p.

(** [record.write(values)] *)
Definition write (pid : Z) (values : gmap string pyval) : M unit :=
  d ← get_db;
  put_db (mkDatabase (List.map (patch pid values) (products d)) (logs d)).

(** [Model.create(values)] *)
Definition create (values : gmap string pyval) : M Z :=
  fun s =>
    let pid := next_id s in
    (Ok pid,
     mkEnv (mkDatabase (products (cr s) ++ [mkProduct pid values]) (logs (cr s)))
           (committed s) (pid + 1) (ticks s)).

(** [SyncLog.create(values)] *)
Definition create_log (entry : log_entry) : M unit :=
  d ← get_db;
  put_db (mkDatabase (products d) (logs d ++ [entry])).

(** The environment after one more log row. *)
Definition with_log (s : env) (entry : log_entry) : env :=
  mkEnv (mkDatabase (products (cr s)) (logs (cr s) ++ [entry]))
        (committed s) (next_id s) (ticks s).

(** [m] relates the environment it ends in to the one it starts from by
    [R], whether it returns or raises. *)
Definition keeps (R : env -> env -> Prop) {A : Type} (m : M A) : Prop :=
  forall s, R s (snd (m s)).

(** The committed rows are the same. *)
Definition same_committed (s s' : env) : Prop := committed s' = committed s.

(** Nothing changed. *)
Definition unchanged (s s' : env) : Prop := s' = s.

End orm.

(* ===================================================================== *)
(** ** models/sync_log.py *)
(* ===================================================================== *)
Module sync_log.
Import python orm.

(** [log_operation]: [product_id] is set only [if product:]. *)
Definition log_operation (operation : operation) (product : option Z)
    (external_id : string) (external_sku : json) (status : log_status)
    (sync_batch_id : string) : M unit :=
  create_log (mkLog operation status product external_id external_sku sync_batch_id).

Definition log_success (operation : operation) (product : option Z)
    (external_id : string) (external_sku : json) (sync_batch_id : string) : M unit :=
  log_operation operation product external_id external_sku St_success sync_batch_id.

(** [log_error] ignores the [operation] it is given and records ['error']. *)
Definition log_error (operation : operation)
    (external_id : string) (external_sku : json) (sync_batch_id : string) : M unit :=
  log_operation Op_error None external_id external_sku St_error sync_batch_id.

End sync_log.

(* ===================================================================== *)
(** ** models/product_sync.py *)
(* ===================================================================== *)
Module product_sync.
Import python orm.

Section with_runtime.
Variable rt : runtime.

Definition search_by_external_id (external_id : string) : M (option Z) :=
  search "external_id" (JStr external_id).

Definition search_by_sku (sku : json) : M (option Z) :=
  product ← search "external_sku" sku;
  match product with
  | Some p => mret (Some p)
  | None => search "default_code" sku
  end.

Definition mark_as_synced (self : Z) : M unit :=
  now ← Datetime_now rt;
  write self {[ "sync_status" := PJson (JStr "synced");
                "last_sync_date" := PDatetime now;
                "sync_error_message" := PFalse ]}.

Definition mark_as_error (self : Z) (error_message : string) : M unit :=
  now ← Datetime_now rt;
  write self {[ "sync_status" := PJson (JStr "error");
                "last_sync_date" := PDatetime now;
                "sync_error_message" := PJson (JStr error_message) ]}.

(** The dictionary literal of [_prepare_values_from_external], before the
    blank values are dropped. *)
Definition raw_values (external_data : gmap string json)
    (list_price standard_price : Q) (now : Z) : gmap string pyval :=
  {[ "name" := PJson (dict_get external_data "name" (JStr ""));
     "external_id" := PJson (JStr (py_str rt (dict_get external_data "id" (JStr ""))));
     "external_sku" := PJson (dict_get external_data "sku" (JStr ""));
     "default_code" := PJson (dict_get external_data "sku" (JStr ""));
     "description" := PJson (dict_get external_data "description" (JStr ""));
     "list_price" := PJson (JFloat list_price);
     "standard_price" := PJson (JFloat standard_price);
     "barcode" := PJson (dict_get external_data "barcode" (JStr ""));
     "active" := PJson (dict_get external_data "active" (JBool true));
     "is_from_external" := PTrue;
     "last_sync_date" := PDatetime now ]}.

Definition _prepare_values_from_external (external_data : gmap string json)
    : M (gmap string pyval) :=
  list_price ← lift (py_float rt (dict_get external_data "list_price" (JFloat 0)));
  standard_price ← lift (py_float rt (dict_get external_data "standard_price" (JFloat 0)));
  now ← Datetime_now rt;
  let values := raw_values external_data list_price standard_price now in
  mret (filter (fun kv : string * pyval => is_blank kv.2 = false) values).

(** The stored value of [name] on record [self] ([False] when the record
    or the field is missing). *)
Definition read (d : database) (self : Z) (name : string) : pyval :=
  match browse d self with
  | Some p => getattr p name
  | None => PFalse
  end.

Definition update_from_external (self : Z) (external_data : gmap string json) : M bool :=
  values ← _prepare_values_from_external external_data;
  d ← get_db;
  let has_changes :=
    existsb (fun kv : string * pyval => negb (py_eq (read d self kv.1) kv.2))
            (map_to_list values) in
  if has_changes then
    write self values;;
    mret true
  else
    mret false.

Definition create_from_external (external_data : gmap string json) : M Z :=
  values ← _prepare_values_from_external external_data;
  let values := <["sync_status" := PJson (JStr "synced")]> values in
  create values.
End with_runtime.

(** The text keys of the payload and the fields they are written to. *)
Definition text_fields : list (string * string) :=
  [("name", "name"); ("description", "description"); ("barcode", "barcode");
   ("sku", "external_sku"); ("sku", "default_code")].

End product_sync.

(* ===================================================================== *)
(** ** services/sync_service.py *)
(* ===================================================================== *)
Module sync_service.
Import python orm sync_log product_sync.

Record summary : Type := mkSummary {
  total : Z;
  n_create : Z;
  n_created : Z;
  n_update : Z;
  n_updated : Z;
  n_skip : Z;
  n_skipped : Z;
  errors : Z;
  sync_batch_id : string
}.

Definition summary_init (sync_batch_id : string) : summary :=
  mkSummary 0 0 0 0 0 0 0 0 sync_batch_id.

Definition set_total (s : summary) (n : Z) : summary :=
  mkSummary n (n_create s) (n_created s) (n_update s) (n_updated s)
            (n_skip s) (n_skipped s) (errors s) (sync_batch_id s).

Definition add_error (s : summary) : summary :=
  mkSummary (total s) (n_create s) (n_created s) (n_update s) (n_updated s)
            (n_skip s) (n_skipped s) (errors s + 1) (sync_batch_id s).

(** [summary[result['operation']] += 1]; the dictionary has no key
    ['delete'] or ['error'], so these raise [KeyError]. *)
Definition bump (op : operation) (s : summary) : exn + summary :=
  match op with
  | Op_create =>
      inr (mkSummary (total s) (n_create s + 1) (n_created s) (n_update s) (n_updated s)
                     (n_skip s) (n_skipped s) (errors s) (sync_batch_id s))
  | Op_update =>
      inr (mkSummary (total s) (n_create s) (n_created s) (n_update s + 1) (n_updated s)
                     (n_skip s) (n_skipped s) (errors s) (sync_batch_id s))
  | Op_skip =>
      inr (mkSummary (total s) (n_create s) (n_created s) (n_update s) (n_updated s)
                     (n_skip s + 1) (n_skipped s) (errors s) (sync_batch_id s))
  | Op_delete | Op_error => inl KeyError
  end.

(** The dictionary [_sync_single_product] returns. *)
Record sync_result : Type := mkResult {
  res_operation : operation;
  res_product : option Z
}.

(** An element of [response['items']]: a JSON object or something else. *)
Inductive item : Type :=
| Obj (d : gmap string json)
| NotObj (v : json).

(** The decoded body of [GET /products]: [None] when it has no ['items']
    key (an empty object included). *)
Definition body : Type := option (list item).

(** [external_products[:limit]] under [if limit:]. *)
Definition apply_limit (limit : option Z) (l : list item) : list item :=
  match limit with
  | None => l
  | Some n =>
    if n =? 0 then l
    else if 0 <? n then firstn (Z.to_nat n) l
    else firstn (length l - Z.to_nat (- n)) l
  end.

(** [rate_limiter.wait_if_needed()] on the limiter [RateLimiter(rate=rate_limit)]
    of [_get_rate_limiter]: it sleeps, and raises only when the rate is 0
    (the division in [_wait_time]). *)
Definition rate_limiter_wait (rate_limit : Z) : M unit :=
  if rate_limit =? 0 then raise ZeroDivisionError else mret tt.

Section with_runtime.
Variable rt : runtime.

Definition _sync_single_product (ext_product : gmap string json)
    (sync_batch_id : string) (dry_run : bool) : M sync_result :=
  let external_id := py_str rt (dict_get ext_product "id" (JStr "")) in
  let external_sku := dict_get ext_product "sku" (JStr "") in
  if String.eqb external_id "" || negb (truthy external_sku) then
    raise ValueError
  else
    existing_product ← search_by_external_id external_id;
    existing_product ←
      match existing_product with
      | Some p => mret (Some p)
      | None => search_by_sku external_sku
      end;
    r ←
      match existing_product return M sync_result with
      | Some p =>
        if dry_run then mret (mkResult Op_update (Some p))
        else
          has_changes ← update_from_external rt p ext_product;
          if has_changes : bool then
            mark_as_synced rt p;;
            mret (mkResult Op_update (Some p))
          else
            mret (mkResult Op_skip (Some p))
      | None =>
        if dry_run then mret (mkResult Op_create None)
        else
          product ← create_from_external rt ext_product;
          mret (mkResult Op_create (Some product))
      end;
    (if dry_run then mret tt
     else log_success (res_operation r) (res_product r) external_id external_sku
                      sync_batch_id);;
    mret r.

(** The body of the [for] loop of [sync_products] for one element. *)
Definition process_one (sync_batch_id : string) (dry_run : bool) (rate_limit : Z)
    (it : item) (s : summary) : M summary :=
  ext_product ←
    match it with
    | Obj d => mret d
    | NotObj _ => raise AttributeError
    end;
  s ← try_except
        (result ← _sync_single_product ext_product sync_batch_id dry_run;
         lift (bump (res_operation result) s))
        (fun e =>
           let s := add_error s in
           (if dry_run then mret tt
            else log_error Op_error
                   (py_str rt (dict_get ext_product "id" (JStr "")))
                   (dict_get ext_product "sku" (JStr ""))
                   sync_batch_id);;
           mret s);
  rate_limiter_wait rate_limit;;
  mret s.

Fixpoint process (sync_batch_id : string) (dry_run : bool) (rate_limit : Z)
    (external_products : list item) (s : summary) : M summary :=
  match external_products with
  | [] => mret s
  | it :: rest =>
    s ← process_one sync_batch_id dry_run rate_limit it s;
    process sync_batch_id dry_run rate_limit rest s
  end.

(** The [try] block of [sync_products(dry_run, limit)]; [response] is
    what [api_client.get('/products')] gives, [rate_limit] the configured
    rate and [sync_batch_id] the identifier drawn for the run. *)
Definition sync_products_try (response : api_client.result body) (rate_limit : Z)
    (sync_batch_id : string) (dry_run : bool) (limit : option Z) : M summary :=
  let s := summary_init sync_batch_id in
  rate_limiter_wait rate_limit;;
  external_products ←
    match response with
    | api_client.Raise_APIClientError msg => raise (APIClientError msg)
    | api_client.Return None => raise UserError
    | api_client.Return (Some None) => raise UserError
    | api_client.Return (Some (Some items)) => mret items
    end;
  let external_products := apply_limit limit external_products in
  let s := set_total s (Z.of_nat (length external_products)) in
  s ← process sync_batch_id dry_run rate_limit external_products s;
  (if dry_run then mret tt else commit);;
  mret s.

(** [sync_products]: the [try] block under [except Exception], which
    rolls back (unless [dry_run]) and re-raises. *)
Definition sync_products (response : api_client.result body) (rate_limit : Z)
    (sync_batch_id : string) (dry_run : bool) (limit : option Z) : M summary :=
  try_except
    (sync_products_try response rate_limit sync_batch_id dry_run limit)
    (fun e =>
       (if dry_run then mret tt else rollback);;
       raise e).
End with_runtime.

(** An empty database and a host whose clock is [clock]. *)
Definition empty_env : env := mkEnv (mkDatabase [] []) (mkDatabase [] []) 1 0.
Definition host (clock : nat -> Z) : runtime :=
  mkRuntime (fun _ => "nan") (fun _ => None) clock.

End sync_service.

(* ===================================================================== *)
(** ** services/api_client.py: the callers of [_make_request] *)
(* ===================================================================== *)
Module api_client_calls.
Import api_client python.

(** [health_check]: [get('/health')] under [except APIClientError].  The
    body of a 2xx answer is whatever JSON the server sent: [NotObj JNull]
    is Python's [None]; on any other value that is not an object
    [response.get] raises [AttributeError], which the method does not
    catch. *)
Definition health_check (self : APIClient) (net : Z -> outcome sync_service.item)
    : option (exn + bool) :=
  match _make_request self net with
  | None => None
  | Some (Return response, _) =>
      Some (match response with
            | None => inr false
            | Some (sync_service.NotObj JNull) => inr false
            | Some (sync_service.NotObj _) => inl AttributeError
            | Some (sync_service.Obj d) =>
                inr (json_eq (dict_get d "status" JNull) (JStr "healthy"))
            end)
  | Some (Raise_APIClientError _, _) => Some (inr false)
  end.

(** What the trace of a run may contain as a sleep: a backoff delay. *)
Definition sleep_ok (e : event) : Prop :=
  match e with
  | Sleep d => (0 < d)%Q /\ (d <= 60)%Q
  | Request _ => True
  end.

End api_client_calls.

(* ===================================================================== *)
(** ** services/rate_limiter.py: the adaptive limiter in use *)
(* ===================================================================== *)
Module adaptive_limiter.
Import rate_limiter.

(** A call on an [AdaptiveRateLimiter]: one of the methods it inherits, one
    of its two reports, or [reset_to_initial]. *)
Inductive adaptive_call : Type :=
| Inherited (c : call)
| Report (f : feedback)
| Reset_to_initial (now : Q).

Definition adaptive_step (self : AdaptiveRateLimiter) (c : adaptive_call) : AdaptiveRateLimiter :=
  match c with
  | Inherited c => with_base self (step (base self) c) (success_count self)
  | Report f => feed self f
  | Reset_to_initial now => reset_to_initial self now
  end.

Definition adaptive_run (self : AdaptiveRateLimiter) (calls : list adaptive_call)
    : AdaptiveRateLimiter :=
  fold_left adaptive_step calls self.




End adaptive_limiter.

(* ===================================================================== *)
(** ** services/sync_service.py: the single-record entry point *)
(* ===================================================================== *)
Module sync_entry.
Import python orm sync_log product_sync sync_service.

(** The identifier [Model.search([(name, '=', value)], limit=1)] finds among
    the rows [d]. *)
Definition find_by (name : string) (value : pyval) (d : database) : option Z :=
  option_map id
    (List.find (fun p => match fields p !! name with
                         | Some v => py_eq v value
                         | None => false
                         end) (products d)).

(** The product [_sync_single_product] resolves a payload to: by external
    identifier, else by external SKU, else by internal code. *)
Definition resolve (rt : runtime) (ext_product : gmap string json) (d : database) : option Z :=
  let external_id := py_str rt (dict_get ext_product "id" (JStr "")) in
  let external_sku := dict_get ext_product "sku" (JStr "") in
  match find_by "external_id" (PJson (JStr external_id)) d with
  | Some p => Some p
  | None =>
    match find_by "external_sku" (PJson external_sku) d with
    | Some p => Some p
    | None => find_by "default_code" (PJson external_sku) d
    end
  end.

(** The test [not external_id or not external_sku]. *)
Definition missing_required (rt : runtime) (ext_product : gmap string json) : bool :=
  String.eqb (py_str rt (dict_get ext_product "id" (JStr ""))) ""
  || negb (truthy (dict_get ext_product "sku" (JStr ""))).

(** The success row [_sync_single_product] logs for [ext_product]. *)
Definition success_row (rt : runtime) (ext_product : gmap string json) (op : operation)
    (p : Z) (sync_batch_id : string) : log_entry :=
  mkLog op St_success (Some p) (py_str rt (dict_get ext_product "id" (JStr "")))
        (dict_get ext_product "sku" (JStr "")) sync_batch_id.

(** [sync_single_product(external_id)]: [response] is what
    [api_client.get(f'/products/{external_id}')] gives, a decoded JSON
    value; the batch identifier is drawn for the call. *)
Definition sync_single_product (rt : runtime) (response : api_client.result item)
    (rate_limit : Z) (sync_batch_id : string) : M sync_result :=
  rate_limiter_wait rate_limit;;
  ext_product ←
    match response with
    | api_client.Raise_APIClientError msg => raise (APIClientError msg)
    | api_client.Return None => raise UserError
    | api_client.Return (Some (Obj d)) =>
        if decide (d = ∅) then raise UserError else mret d
    | api_client.Return (Some (NotObj v)) =>
        if truthy v then raise AttributeError else raise UserError
    end;
  result ← _sync_single_product rt ext_product sync_batch_id false;
  commit;;
  mret result.

(** The error row the loop of [sync_products] logs for [ext_product]. *)
Definition error_row (rt : runtime) (ext_product : gmap string json) (sync_batch_id : string)
    : log_entry :=
  mkLog Op_error St_error None (py_str rt (dict_get ext_product "id" (JStr "")))
        (dict_get ext_product "sku" (JStr "")) sync_batch_id.

Definition is_error_row (r : log_entry) : bool :=
  match log_status_ r with St_error => true | _ => false end.

(** The sum of the four counters [summary[operation] += 1] and
    [summary['errors'] += 1] can touch. *)
Definition counters (sm : summary) : Z :=
  n_create sm + n_update sm + n_skip sm + errors sm.

(** [sm'] differs from [sm] in those four counters only. *)
Definition same_header (sm sm' : summary) : Prop :=
  total sm' = total sm /\ n_created sm' = n_created sm /\ n_updated sm' = n_updated sm
  /\ n_skipped sm' = n_skipped sm /\ sync_batch_id sm' = sync_batch_id sm.

(** What [n] records processed outside a dry run leave behind. *)
Definition accounted (batch : string) (n : nat) (sm : summary) (s : env)
    (sm' : summary) (s' : env) : Prop :=
  same_header sm sm'
  /\ counters sm' = counters sm + Z.of_nat n
  /\ (n_create sm <= n_create sm' /\ n_update sm <= n_update sm'
      /\ n_skip sm <= n_skip sm' /\ errors sm <= errors sm')
  /\ committed s' = committed s
  /\ (exists rows,
        logs (cr s') = logs (cr s) ++ rows
        /\ length rows = n
        /\ Forall (fun r => log_sync_batch_id r = batch) rows
        /\ Z.of_nat (length (List.filter is_error_row rows)) = errors sm' - errors sm)
  /\ (exists new,
        List.map id (products (cr s')) = List.map id (products (cr s)) ++ new
        /\ Z.of_nat (length new) = n_create sm' - n_create sm).

End sync_entry.

(* ===================================================================== *)
(** ** models/product_sync.py: the constraint on the external fields *)
(* ===================================================================== *)
Module product_checks.
Import python orm.

(** The truth value of a stored field. *)
Definition py_truthy (v : pyval) : bool :=
  match v with
  | PJson j => truthy j
  | PDatetime _ => true
  end.


(** Odoo's [search] leaves out the archived rows, those whose [active] is
    false ([active] is [True] on a row that never set it), unless the
    domain mentions [active]; the scans of [search_by_external_id] and
    [search_by_sku] are what it returns when no row is archived. *)
Definition is_active (p : product) : bool :=
  match fields p !! "active" with
  | Some v => py_truthy v
  | None => true
  end.

Definition no_archived_row (d : database) : Prop :=
  Forall (fun p => is_active p = true) (products d).

(** The exception the two [float(...)] of [_prepare_values_from_external]
    raise for a payload, if any: the list price is converted first. *)
Definition price_error (rt : runtime) (external_data : gmap string json) : option exn :=
  match py_float rt (dict_get external_data "list_price" (JFloat 0)) with
  | inl e => Some e
  | inr _ =>
    match py_float rt (dict_get external_data "standard_price" (JFloat 0)) with
    | inl e => Some e
    | inr _ => None
    end
  end.

End product_checks.

(* ===================================================================== *)
(** ** services/rate_limiter.py over binary64 *)
(* ===================================================================== *)

(** [RateLimiter] with Python's [float], the IEEE 754 binary64 format with
    rounding to nearest even, which is what the primitive floats compute.
    The clock readings are inputs, as above. *)
Module rate_limiter_binary64.

Inductive exn : Type := ZeroDivisionError | OverflowError.

(** [float(n)] for an [int]: the nearest double, [OverflowError] when
    that is beyond the largest one. *)
Definition float_of_int (n : Z) : exn + float :=
  let x := SF2Prim (binary_normalize prec emax n 0 false) in
  if is_infinity x then inl OverflowError else inr x.

(** [x / y] on floats, the left operand converted already. *)
Definition float_div (x y : float) : exn + float :=
  if (y =? 0)%float then inl ZeroDivisionError else inr (x / y)%float.

(** [min(a, b)]: [b] when [b < a], else [a]. *)
Definition py_min (a b : float) : float :=
  if (b <? a)%float then b else a.

Record RateLimiter : Type := mkRateLimiter {
  rate : Z;
  per_seconds : float;
  tokens : float;
  max_tokens : float;
  last_refill : float
}.

(** [RateLimiter(rate, per_seconds)], built when the clock reads [now]. *)
Definition RateLimiter_init (rate : Z) (per_seconds now : float) : exn + RateLimiter :=
  match float_of_int rate with
  | inl e => inl e
  | inr capacity =>
      inr {| rate := rate; per_seconds := per_seconds; tokens := capacity;
             max_tokens := capacity; last_refill := now |}
  end.

Definition set_tokens (self : RateLimiter) (t : float) : RateLimiter :=
  {| rate := rate self; per_seconds := per_seconds self; tokens := t;
     max_tokens := max_tokens self; last_refill := last_refill self |}.

Definition set_last_refill (self : RateLimiter) (now : float) : RateLimiter :=
  {| rate := rate self; per_seconds := per_seconds self; tokens := tokens self;
     max_tokens := max_tokens self; last_refill := now |}.

(** [_refill_tokens], with [now] the value [time.time()] returns; a raise
    of [self.rate / self.per_seconds] comes before any assignment. *)
Definition _refill_tokens (self : RateLimiter) (now : float) : exn + RateLimiter :=
  let elapsed := (now - last_refill self)%float in
  match float_of_int (rate self) with
  | inl e => inl e
  | inr r =>
    match float_div r (per_seconds self) with
    | inl e => inl e
    | inr speed =>
      let tokens_to_add := (elapsed * speed)%float in
      let self := set_tokens self (py_min (max_tokens self) (tokens self + tokens_to_add)%float) in
      inr (set_last_refill self now)
    end
  end.

Definition _wait_time (self : RateLimiter) : exn + float :=
  if (1 <=? tokens self)%float then inr 0%float
  else
    match float_of_int (rate self) with
    | inl e => inl e
    | inr r =>
      match float_div (per_seconds self) r with
      | inl e => inl e
      | inr time_per_token =>
        let tokens_needed := (1 - tokens self)%float in
        inr (tokens_needed * time_per_token)%float
      end
    end.

(** [wait_if_needed]: [now] is the clock at the first refill and [now']
    the clock at the refill that follows [time.sleep(wait_time)], which is
    taken to return.  The object keeps the mutations made before a raise. *)
Definition wait_if_needed (self : RateLimiter) (now now' : float)
    : RateLimiter * (exn + unit) :=
  match _refill_tokens self now with
  | inl e => (self, inl e)
  | inr self =>
    match _wait_time self with
    | inl e => (self, inl e)
    | inr wait_time =>
      if (0 <? wait_time)%float then
        match _refill_tokens self now' with
        | inl e => (self, inl e)
        | inr self => (set_tokens self (tokens self - 1)%float, inr tt)
        end
      else (set_tokens self (tokens self - 1)%float, inr tt)
    end
  end.

Definition try_acquire (self : RateLimiter) (now : float) : RateLimiter * (exn + bool) :=
  match _refill_tokens self now with
  | inl e => (self, inl e)
  | inr self =>
    if (1 <=? tokens self)%float then (set_tokens self (tokens self - 1)%float, inr true)
    else (self, inr false)
  end.

Definition get_tokens (self : RateLimiter) (now : float) : RateLimiter * (exn + float) :=
  match _refill_tokens self now with
  | inl e => (self, inl e)
  | inr self => (self, inr (tokens self))
  end.

Definition reset (self : RateLimiter) (now : float) : RateLimiter :=
  set_last_refill (set_tokens self (max_tokens self)) now.

(** [n] calls of [try_acquire], all at the clock reading [now]; the
    answers are collected in order. *)
Fixpoint try_acquire_times (n : nat) (self : RateLimiter) (now : float)
    : RateLimiter * list (exn + bool) :=
  match n with
  | O => (self, [])
  | S n =>
    let (self, r) := try_acquire self now in
    let (self, rs) := try_acquire_times n self now in
    (self, r :: rs)
  end.

End rate_limiter_binary64.

(* ===================================================================== *)
(** * Properties *)
(* ===================================================================== *)

(** ** The client: backoff, retry classification, exhaustion *)
Section api_client_properties.
Import api_client.

Lemma Qmin_inject_Z (a b : Z) : Qmin (inject_Z a) (inject_Z b) == inject_Z (Z.min a b).
Proof.
  destruct (Z.le_gt_cases a b) as [Hab|Hab].
  - rewrite Z.min_l by lia. apply Q.min_l. rewrite <- Zle_Qle. lia.
  - rewrite Z.min_r by lia. apply Q.min_r. rewrite <- Zle_Qle. lia.
Qed.

Lemma backoff_closed_form (n : Z) :
  1 <= n -> _calculate_backoff n == inject_Z (Z.min (2 ^ (n - 1)) 60).
Proof.
  intros Hn. unfold _calculate_backoff. cbv zeta.
  rewrite <- Qmin_inject_Z.
  apply Q.min_compat; [|reflexivity].
  rewrite Zpower_Qpower by lia. reflexivity.
Qed.

(** C8: for every attempt number [n >= 1] the backoff delay is
    [min(2^(n-1), 60)] seconds; in particular it is 1, 8 and 60 at
    attempts 1, 4 and 10. *)
Theorem calculate_backoff_spec :
  (forall n : Z, 1 <= n -> _calculate_backoff n == inject_Z (Z.min (2 ^ (n - 1)) 60))
  /\ _calculate_backoff 1 = 1%Q
  /\ _calculate_backoff 4 = 8%Q
  /\ _calculate_backoff 10 = 60%Q.
Proof.
  split; [exact backoff_closed_form|].
  repeat split; reflexivity.
Qed.

Lemma calculate_backoff_spec_witness :
  1 <= 7 /\ _calculate_backoff 7 == inject_Z (Z.min (2 ^ (7 - 1)) 60).
Proof.
  split; [lia | apply (proj1 calculate_backoff_spec 7); lia].
Defined.

(** *** The retry loop *)

Lemma retries_trace_snoc (a : Z) (n : nat) :
  retries_trace a (S n) =
  retries_trace a n ++ [Request (a + Z.of_nat n + 1); Sleep (_calculate_backoff (a + Z.of_nat n + 1))].
Proof.
  revert a. induction n as [|n IH]; intros a.
  - cbn [retries_trace app Z.of_nat]. rewrite Z.add_0_r. reflexivity.
  - change (retries_trace a (S (S n)))
      with (Request (a + 1) :: Sleep (_calculate_backoff (a + 1)) :: retries_trace (a + 1) (S n)).
    rewrite IH. cbn [retries_trace app].
    replace (a + 1 + Z.of_nat n + 1) with (a + Z.of_nat (S n) + 1) by lia.
    reflexivity.
Qed.

Lemma retryable_status_not_2xx (st : Z) :
  ((500 <=? st) && (st <? 600)) || (st =? 429) || (st =? 408) = true ->
  (200 <=? st) && (st <? 300) = false.
Proof. intros H. apply andb_false_iff. lia. Qed.

Lemma should_retry_retryable (self : APIClient) (st attempt : Z) :
  ((500 <=? st) && (st <? 600)) || (st =? 429) || (st =? 408) = true ->
  _should_retry self st attempt = (attempt <? max_retries self).
Proof.
  intros H. unfold _should_retry.
  destruct (Z.leb_spec (max_retries self) attempt) as [Hle|Hlt].
  - symmetry. apply Z.ltb_ge. lia.
  - destruct ((500 <=? st) && (st <? 600)) eqn:E5; [symmetry; apply Z.ltb_lt; lia|].
    destruct (st =? 429) eqn:E429; [symmetry; apply Z.ltb_lt; lia|].
    destruct (st =? 408) eqn:E408; [symmetry; apply Z.ltb_lt; lia|].
    discriminate H.
Qed.

Lemma should_retry_terminal (self : APIClient) (st attempt : Z) :
  In st [400; 401; 403; 404] -> _should_retry self st attempt = false.
Proof.
  intros H. unfold _should_retry.
  destruct (max_retries self <=? attempt); [reflexivity|].
  cbn in H. destruct H as [<-|[<-|[<-|[<-|[]]]]]; reflexivity.
Qed.

Section loop_lemmas.
Context {J : Type}.
Variable self : APIClient.
Variable net : Z -> outcome J.

(** With enough fuel the loop ends, and it only appends to the trace. *)
Lemma request_loop_total (fuel : nat) :
  forall (a : Z) (last : option string) (tr : list event),
    max_retries self - a <= Z.of_nat fuel ->
    exists r rest, request_loop self net fuel a last tr = Some (r, tr ++ rest).
Proof using Type.
  induction fuel as [|fuel IH]; intros a last tr Hfuel.
  - cbn. destruct (Z.ltb_spec a (max_retries self)); [lia|].
    exists (Raise_APIClientError (exhausted_msg self last)), []. now rewrite app_nil_r.
  - cbn [request_loop]. destruct (Z.ltb_spec a (max_retries self)) as [Hlt|Hge].
    + assert (Hf : max_retries self - (a + 1) <= Z.of_nat fuel) by lia.
      destruct (net (a + 1)) as [st js text|e|e|e].
      * destruct ((200 <=? st) && (st <? 300)).
        { eexists _, [Request (a + 1)]. reflexivity. }
        destruct (_should_retry self st (a + 1)).
        { destruct (IH (a + 1) last ((tr ++ [Request (a + 1)]) ++ [Sleep (_calculate_backoff (a + 1))]) Hf)
            as (r & rest & ->).
          exists r. eexists. rewrite <- !app_assoc. reflexivity. }
        eexists _, [Request (a + 1)]. reflexivity.
      * destruct (a + 1 <? max_retries self).
        { destruct (IH (a + 1) (Some e) ((tr ++ [Request (a + 1)]) ++ [Sleep (_calculate_backoff (a + 1))]) Hf)
            as (r & rest & ->).
          exists r. eexists. rewrite <- !app_assoc. reflexivity. }
        destruct (IH (a + 1) (Some e) (tr ++ [Request (a + 1)]) Hf) as (r & rest & ->).
        exists r. eexists. rewrite <- !app_assoc. reflexivity.
      * destruct (a + 1 <? max_retries self).
        { destruct (IH (a + 1) (Some e) ((tr ++ [Request (a + 1)]) ++ [Sleep (_calculate_backoff (a + 1))]) Hf)
            as (r & rest & ->).
          exists r. eexists. rewrite <- !app_assoc. reflexivity. }
        destruct (IH (a + 1) (Some e) (tr ++ [Request (a + 1)]) Hf) as (r & rest & ->).
        exists r. eexists. rewrite <- !app_assoc. reflexivity.
      * destruct (a + 1 <? max_retries self).
        { destruct (IH (a + 1) (Some e) ((tr ++ [Request (a + 1)]) ++ [Sleep (_calculate_backoff (a + 1))]) Hf)
            as (r & rest & ->).
          exists r. eexists. rewrite <- !app_assoc. reflexivity. }
        destruct (IH (a + 1) (Some e) (tr ++ [Request (a + 1)]) Hf) as (r & rest & ->).
        exists r. eexists. rewrite <- !app_assoc. reflexivity.
    + exists (Raise_APIClientError (exhausted_msg self last)), []. now rewrite app_nil_r.
Qed.

(** While attempts remain, the next thing the loop does is a request. *)
Lemma request_loop_next_request (fuel : nat) (a : Z) (last : option string) (tr : list event) :
  a < max_retries self ->
  max_retries self - a <= Z.of_nat fuel ->
  exists r rest, request_loop self net fuel a last tr = Some (r, tr ++ Request (a + 1) :: rest).
Proof using Type.
  intros Hlt Hfuel. destruct fuel as [|fuel]; [cbn in Hfuel; lia|].
  assert (Hf : max_retries self - (a + 1) <= Z.of_nat fuel) by lia.
  cbn [request_loop]. destruct (Z.ltb_spec a (max_retries self)); [|lia].
  destruct (net (a + 1)) as [st js text|e|e|e].
  - destruct ((200 <=? st) && (st <? 300)).
    { eexists _, []. reflexivity. }
    destruct (_should_retry self st (a + 1)).
    { destruct (request_loop_total fuel (a + 1) last
                  ((tr ++ [Request (a + 1)]) ++ [Sleep (_calculate_backoff (a + 1))]) Hf)
        as (r & rest & ->).
      exists r. eexists. rewrite <- !app_assoc. reflexivity. }
    eexists _, []. reflexivity.
  - destruct (a + 1 <? max_retries self).
    + destruct (request_loop_total fuel (a + 1) (Some e)
                  ((tr ++ [Request (a + 1)]) ++ [Sleep (_calculate_backoff (a + 1))]) Hf)
        as (r & rest & ->).
      exists r. eexists. rewrite <- !app_assoc. reflexivity.
    + destruct (request_loop_total fuel (a + 1) (Some e) (tr ++ [Request (a + 1)]) Hf)
        as (r & rest & ->).
      exists r. eexists. rewrite <- !app_assoc. reflexivity.
  - destruct (a + 1 <? max_retries self).
    + destruct (request_loop_total fuel (a + 1) (Some e)
                  ((tr ++ [Request (a + 1)]) ++ [Sleep (_calculate_backoff (a + 1))]) Hf)
        as (r & rest & ->).
      exists r. eexists. rewrite <- !app_assoc. reflexivity.
    + destruct (request_loop_total fuel (a + 1) (Some e) (tr ++ [Request (a + 1)]) Hf)
        as (r & rest & ->).
      exists r. eexists. rewrite <- !app_assoc. reflexivity.
  - destruct (a + 1 <? max_retries self).
    + destruct (request_loop_total fuel (a + 1) (Some e)
                  ((tr ++ [Request (a + 1)]) ++ [Sleep (_calculate_backoff (a + 1))]) Hf)
        as (r & rest & ->).
      exists r. eexists. rewrite <- !app_assoc. reflexivity.
    + destruct (request_loop_total fuel (a + 1) (Some e) (tr ++ [Request (a + 1)]) Hf)
        as (r & rest & ->).
      exists r. eexists. rewrite <- !app_assoc. reflexivity.
Qed.

(** [n] retryable failures in a row, with attempts to spare, are each
    followed by their backoff and by the next attempt. *)
Lemma request_loop_retries (n : nat) :
  forall (fuel : nat) (a : Z) (last : option string) (tr : list event),
    (forall j, a < j <= a + Z.of_nat n -> retryable (net j) = true) ->
    a + Z.of_nat n < max_retries self ->
    exists last',
      request_loop self net (n + fuel) a last tr =
      request_loop self net fuel (a + Z.of_nat n) last' (tr ++ retries_trace a n).
Proof using Type.
  induction n as [|n IH]; intros fuel a last tr Hret Hlt.
  - exists last. cbn. rewrite app_nil_r. f_equal. lia.
  - assert (Hnext : retryable (net (a + 1)) = true) by (apply Hret; lia).
    assert (Hrest : forall j, a + 1 < j <= a + 1 + Z.of_nat n -> retryable (net j) = true)
      by (intros j Hj; apply Hret; lia).
    assert (Hlt' : a + 1 + Z.of_nat n < max_retries self) by lia.
    change (S n + fuel)%nat with (S (n + fuel)). cbn [request_loop retries_trace].
    destruct (Z.ltb_spec a (max_retries self)); [|lia].
    replace (a + Z.of_nat (S n)) with (a + 1 + Z.of_nat n) by lia.
    destruct (net (a + 1)) as [st js text|e|e|e]; cbn in Hnext.
    + rewrite (retryable_status_not_2xx _ Hnext).
      rewrite (should_retry_retryable self st (a + 1) Hnext).
      destruct (Z.ltb_spec (a + 1) (max_retries self)); [|lia].
      destruct (IH fuel (a + 1) last ((tr ++ [Request (a + 1)]) ++ [Sleep (_calculate_backoff (a + 1))])
                  Hrest Hlt') as [last' ->].
      exists last'. f_equal. rewrite <- !app_assoc. reflexivity.
    + destruct (Z.ltb_spec (a + 1) (max_retries self)); [|lia].
      destruct (IH fuel (a + 1) (Some e) ((tr ++ [Request (a + 1)]) ++ [Sleep (_calculate_backoff (a + 1))])
                  Hrest Hlt') as [last' ->].
      exists last'. f_equal. rewrite <- !app_assoc. reflexivity.
    + destruct (Z.ltb_spec (a + 1) (max_retries self)); [|lia].
      destruct (IH fuel (a + 1) (Some e) ((tr ++ [Request (a + 1)]) ++ [Sleep (_calculate_backoff (a + 1))])
                  Hrest Hlt') as [last' ->].
      exists last'. f_equal. rewrite <- !app_assoc. reflexivity.
    + destruct (Z.ltb_spec (a + 1) (max_retries self)); [|lia].
      destruct (IH fuel (a + 1) (Some e) ((tr ++ [Request (a + 1)]) ++ [Sleep (_calculate_backoff (a + 1))])
                  Hrest Hlt') as [last' ->].
      exists last'. f_equal. rewrite <- !app_assoc. reflexivity.
Qed.

(** Attempt [k] is reached after [k - 1] retried failures. *)
Lemma make_request_reaches (k : Z) :
  1 <= k <= max_retries self ->
  (forall j, 1 <= j < k -> retryable (net j) = true) ->
  exists last fuel,
    _make_request self net =
    request_loop self net (S fuel) (k - 1) last (retries_trace 0 (Z.to_nat (k - 1)))
    /\ max_retries self - k <= Z.of_nat fuel.
Proof using Type.
  intros Hk Hret. unfold _make_request.
  replace (Z.to_nat (max_retries self))
    with (Z.to_nat (k - 1) + S (Z.to_nat (max_retries self - k)))%nat by lia.
  destruct (request_loop_retries (Z.to_nat (k - 1)) (S (Z.to_nat (max_retries self - k)))
              0 None []) as [last Heq].
  - intros j Hj. apply Hret. lia.
  - lia.
  - exists last, (Z.to_nat (max_retries self - k)). split; [|lia].
    rewrite Heq. cbn [app]. f_equal. lia.
Qed.

(** A response that is neither a success nor retried ends the run with
    the client-error message, whatever its status. *)
Lemma make_request_stops_at (k st : Z) (js : option J) (text : string) :
  1 <= k <= max_retries self ->
  (forall j, 1 <= j < k -> retryable (net j) = true) ->
  net k = Response st js text ->
  (200 <=? st) && (st <? 300) = false ->
  _should_retry self st k = false ->
  _make_request self net =
  Some (Raise_APIClientError (client_error_msg st text),
        retries_trace 0 (Z.to_nat (k - 1)) ++ [Request k]).
Proof using Type.
  intros Hk Hret Hnet H2xx Hstop.
  destruct (make_request_reaches k Hk Hret) as (last & fuel & -> & _).
  cbn [request_loop]. destruct (Z.ltb_spec (k - 1) (max_retries self)); [|lia].
  replace (k - 1 + 1) with k by lia.
  rewrite Hnet, H2xx, Hstop. reflexivity.
Qed.

(** When the last attempt fails with a network exception, the
    exhaustion message wraps that exception. *)
Lemma make_request_exhausted_on_exception (e : string) :
  1 <= max_retries self ->
  (forall j, 1 <= j < max_retries self -> retryable (net j) = true) ->
  net (max_retries self) = Timeout e \/ net (max_retries self) = ConnectionError e
    \/ net (max_retries self) = RequestException e ->
  _make_request self net =
  Some (Raise_APIClientError (exhausted_msg self (Some e)),
        retries_trace 0 (Z.to_nat (max_retries self - 1)) ++ [Request (max_retries self)]).
Proof using Type.
  intros Hk Hret Hnet.
  destruct (make_request_reaches (max_retries self) ltac:(lia) Hret) as (last & fuel & -> & _).
  cbn [request_loop]. destruct (Z.ltb_spec (max_retries self - 1) (max_retries self)); [|lia].
  replace (max_retries self - 1 + 1) with (max_retries self) by lia.
  assert (Hend : forall tr,
    request_loop self net fuel (max_retries self) (Some e) tr =
    Some (Raise_APIClientError (exhausted_msg self (Some e)), tr)).
  { intros tr. destruct fuel; cbn [request_loop];
      destruct (Z.ltb_spec (max_retries self) (max_retries self)); (lia || reflexivity). }
  destruct Hnet as [-> | [-> | ->]];
    destruct (Z.ltb_spec (max_retries self) (max_retries self)); try lia; apply Hend.
Qed.

(** When the last attempt fails with a retryable status, the run ends
    with the client-error message, not with the exhaustion message. *)
Lemma make_request_exhausted_on_status (st : Z) (js : option J) (text : string) :
  1 <= max_retries self ->
  (forall j, 1 <= j < max_retries self -> retryable (net j) = true) ->
  net (max_retries self) = Response st js text ->
  retryable (net (max_retries self)) = true ->
  _make_request self net =
  Some (Raise_APIClientError (client_error_msg st text),
        retries_trace 0 (Z.to_nat (max_retries self - 1)) ++ [Request (max_retries self)]).
Proof using Type.
  intros Hk Hret Hnet Hlast. rewrite Hnet in Hlast. cbn in Hlast.
  apply (make_request_stops_at _ st js text); [lia|assumption|assumption| |].
  - apply retryable_status_not_2xx, Hlast.
  - rewrite (should_retry_retryable self st _ Hlast). apply Z.ltb_ge. lia.
Qed.
End loop_lemmas.

(** C4: the retry classification.  A response with status 400, 401, 403 or
    404 is never retried: the run ends at once with [APIClientError], the
    request that received it being the last event.  A response with status
    500, 502, 503, 429 or 408 is retried exactly while attempts remain: its
    backoff is slept and the next attempt is made.  (The attempts before
    attempt [k] are failures the policy retries.) *)
Theorem retry_classification {J : Type} (self : APIClient) (net : Z -> outcome J)
    (k st : Z) (js : option J) (text : string) :
  1 <= k <= max_retries self ->
  net k = Response st js text ->
  (forall j, 1 <= j < k -> retryable (net j) = true) ->
  (In st [400; 401; 403; 404] ->
     _should_retry self st k = false
     /\ _make_request self net =
        Some (Raise_APIClientError (client_error_msg st text),
              retries_trace 0 (Z.to_nat (k - 1)) ++ [Request k]))
  /\ (In st [500; 502; 503; 429; 408] ->
     _should_retry self st k = (k <? max_retries self)
     /\ (k < max_retries self ->
         exists r rest,
           _make_request self net =
           Some (r, retries_trace 0 (Z.to_nat (k - 1))
                    ++ [Request k; Sleep (_calculate_backoff k); Request (k + 1)] ++ rest))).
Proof.
  intros Hk Hnet Hret. split.
  - intros Hst. split; [apply should_retry_terminal, Hst|].
    apply (make_request_stops_at self net k st js text); try assumption.
    + cbn in Hst. destruct Hst as [<-|[<-|[<-|[<-|[]]]]]; reflexivity.
    + apply should_retry_terminal, Hst.
  - intros Hst.
    assert (Hr : ((500 <=? st) && (st <? 600)) || (st =? 429) || (st =? 408) = true).
    { cbn in Hst. destruct Hst as [<-|[<-|[<-|[<-|[<-|[]]]]]]; reflexivity. }
    split; [apply should_retry_retryable, Hr|].
    intros Hlt.
    destruct (make_request_reaches self net (k + 1)) as (last & fuel & Heq & Hfuel); [lia| |].
    { intros j Hj. destruct (Z.eq_dec j k) as [->|Hne].
      - rewrite Hnet. exact Hr.
      - apply Hret. lia. }
    rewrite Heq. replace (k + 1 - 1) with k by lia.
    destruct (request_loop_next_request self net (S fuel) k last
                (retries_trace 0 (Z.to_nat k)) Hlt ltac:(lia)) as (r & rest & ->).
    exists r, rest. f_equal. f_equal.
    replace (Z.to_nat k) with (S (Z.to_nat (k - 1))) by lia.
    rewrite retries_trace_snoc, <- app_assoc. cbn [app].
    replace (0 + Z.of_nat (Z.to_nat (k - 1)) + 1) with k by lia. reflexivity.
Qed.

Lemma retry_classification_witness :
  let self := mkAPIClient "http://test-api:8000" 5 3 in
  let net := fun j : Z => if j =? 1 then Response (J := unit) 503 None "" else Response 404 None "Not Found" in
  (In 404 [400; 401; 403; 404] ->
     _should_retry self 404 2 = false
     /\ _make_request self net =
        Some (Raise_APIClientError (client_error_msg 404 "Not Found"),
              retries_trace 0 (Z.to_nat (2 - 1)) ++ [Request 2]))
  /\ (In 404 [500; 502; 503; 429; 408] ->
     _should_retry self 404 2 = (2 <? max_retries self)
     /\ (2 < max_retries self ->
         exists r rest,
           _make_request self net =
           Some (r, retries_trace 0 (Z.to_nat (2 - 1))
                    ++ [Request 2; Sleep (_calculate_backoff 2); Request (2 + 1)] ++ rest))).
Proof.
  intros self net.
  apply (retry_classification self net 2 404 None "Not Found").
  - cbn. lia.
  - reflexivity.
  - intros j Hj. assert (j = 1) as -> by lia. reflexivity.
Defined.

(** C3 (the code departs from it): with three attempts that all receive
    status 500, [_make_request] raises [APIClientError] with the message of
    a client error, not the message of exhausted attempts. *)
Theorem make_request_all_500 :
  _make_request (J := unit) (mkAPIClient "http://test-api:8000" 5 3)
                (fun _ => Response 500 None "boom")
  = Some (Raise_APIClientError "Client error: 500 - boom",
          [Request 1; Sleep 1; Request 2; Sleep 2; Request 3]).
Proof. vm_compute. reflexivity. Qed.
End api_client_properties.

(** ** The rate limiters *)
Section rate_limiter_properties.
Import rate_limiter.

(** *** AdaptiveRateLimiter *)

Lemma with_base_eta (s : AdaptiveRateLimiter) :
  with_base s (base s) (success_count s) = s.
Proof. destruct s; reflexivity. Qed.

Lemma report_success_below (s : AdaptiveRateLimiter) :
  success_count s + 1 < 10 ->
  report_success s = with_base s (base s) (success_count s + 1).
Proof.
  intros H. unfold report_success. cbn.
  destruct (Z.leb_spec 10 (success_count s + 1)); [lia|reflexivity].
Qed.

Lemma report_success_tenth (s : AdaptiveRateLimiter) :
  10 <= success_count s + 1 ->
  report_success s =
  with_base s (set_max_tokens (set_rate (base s) (Z.min (max_rate s) (rate (base s) + 1)))
                 (inject_Z (Z.min (max_rate s) (rate (base s) + 1)))) 0.
Proof.
  intros H. unfold report_success. cbn.
  destruct (Z.leb_spec 10 (success_count s + 1)); [reflexivity|lia].
Qed.

Lemma successes_below (n : nat) :
  forall s : AdaptiveRateLimiter,
    success_count s + Z.of_nat n < 10 ->
    feed_all s (repeat Report_success n) = with_base s (base s) (success_count s + Z.of_nat n).
Proof.
  induction n as [|n IH]; intros s H.
  - cbn. rewrite Z.add_0_r. symmetry. apply with_base_eta.
  - cbn [repeat feed_all fold_left feed].
    rewrite report_success_below by lia.
    fold (feed_all (with_base s (base s) (success_count s + 1)) (repeat Report_success n)).
    rewrite IH by (cbn; lia). cbn. f_equal. lia.
Qed.

(** Ten successes in a row cross the threshold exactly once. *)
Lemma ten_successes (s : AdaptiveRateLimiter) :
  0 <= success_count s <= 9 ->
  let s' := feed_all s (repeat Report_success 10) in
  rate (base s') = Z.min (max_rate s) (rate (base s) + 1)
  /\ success_count s' = success_count s
  /\ min_rate s' = min_rate s /\ max_rate s' = max_rate s.
Proof.
  intros Hc s'. subst s'.
  set (c := success_count s) in *.
  replace 10%nat with (Z.to_nat (9 - c) + (1 + Z.to_nat c))%nat by lia.
  rewrite repeat_app. unfold feed_all. rewrite fold_left_app.
  fold (feed_all s (repeat Report_success (Z.to_nat (9 - c)))).
  rewrite successes_below by (fold c; lia).
  cbn [repeat Nat.add fold_left feed].
  rewrite report_success_tenth by (cbn; fold c; lia).
  match goal with
  | |- context [fold_left feed (repeat Report_success ?n) ?x] =>
      change (fold_left feed (repeat Report_success n) x) with (feed_all x (repeat Report_success n))
  end.
  rewrite successes_below by (cbn; lia).
  cbn. repeat split. lia.
Qed.

Lemma feed_keeps_inv (mn mx : Z) (s : AdaptiveRateLimiter) (f : feedback) :
  0 <= mn -> adaptive_inv mn mx s -> adaptive_inv mn mx (feed s f).
Proof.
  intros Hmn (Hmin & Hmax & Hr & Hc). destruct f; cbn [feed].
  - destruct (Z.lt_ge_cases (success_count s + 1) 10) as [Hlt|Hge].
    + rewrite report_success_below by assumption. unfold adaptive_inv. cbn. lia.
    + rewrite report_success_tenth by assumption. unfold adaptive_inv. cbn. lia.
  - unfold report_rate_limit_error, adaptive_inv. cbn.
    assert (rate (base s) / 2 <= rate (base s)) by (apply Z.div_le_upper_bound; lia).
    lia.
Qed.

Lemma feed_all_keeps_inv (mn mx : Z) (fs : list feedback) :
  forall s, 0 <= mn -> adaptive_inv mn mx s -> adaptive_inv mn mx (feed_all s fs).
Proof.
  induction fs as [|f fs IH]; intros s Hmn Hs; [exact Hs|].
  cbn. apply IH; [assumption|]. apply feed_keeps_inv; assumption.
Qed.

(** C5: from any configured rate in [[min_rate, max_rate]] (rates are
    counts of requests, so [0 <= min_rate]) and after any sequence of
    [report_success] / [report_rate_limit_error] calls: the rate is within
    [[min_rate, max_rate]]; ten further [report_success] calls raise it by
    exactly 1, capped at [max_rate], and a run that starts from a reset
    counter ends with the counter reset; one [report_rate_limit_error] sets
    it to [rate // 2] floored at [min_rate] and resets the counter. *)
Theorem adaptive_rate_limiter_spec (r mn mx : Z) (now : Q) (fs : list feedback) :
  0 <= mn -> mn <= r <= mx ->
  let s := feed_all (AdaptiveRateLimiter_init r mn mx now) fs in
  mn <= rate (base s) <= mx
  /\ (let s' := feed_all s (repeat Report_success 10) in
      rate (base s') = Z.min mx (rate (base s) + 1)
      /\ (success_count s = 0 -> success_count s' = 0))
  /\ (let s' := report_rate_limit_error s in
      rate (base s') = Z.max mn (rate (base s) / 2)
      /\ success_count s' = 0).
Proof.
  intros Hmn Hr s.
  assert (Hinv : adaptive_inv mn mx s).
  { apply feed_all_keeps_inv; [assumption|]. unfold adaptive_inv. cbn. lia. }
  destruct Hinv as (Hmin & Hmax & Hrate & Hc).
  split; [exact Hrate|]. split.
  - destruct (ten_successes s Hc) as (H1 & H2 & _). cbv zeta in *.
    rewrite H1, H2, Hmax. split; [reflexivity|tauto].
  - cbn. rewrite Hmin. split; reflexivity.
Qed.

(** *** RateLimiter *)
Local Open Scope Q_scope.

Lemma refill_ok (s : RateLimiter) (now : Q) :
  0 < per_seconds s ->
  exists s', _refill_tokens s now = Some s'
    /\ rate s' = rate s /\ per_seconds s' = per_seconds s
    /\ max_tokens s' = max_tokens s /\ last_refill s' = now
    /\ tokens s' =
       Qmin (max_tokens s)
            (tokens s + (now - last_refill s) * (inject_Z (rate s) / per_seconds s)).
Proof.
  intros Hp. unfold _refill_tokens.
  destruct (Qeq_bool (per_seconds s) 0) eqn:E.
  - apply Qeq_bool_iff in E. lra.
  - eexists. split; [reflexivity|]. cbn. repeat split; reflexivity.
Qed.







(** [wait_if_needed] raises exactly for a limiter of rate 0, which is how
    [sync_service.rate_limiter_wait] models the limiter of the sync run. *)
Lemma wait_if_needed_nonzero_rate (s : RateLimiter) (now now' : Q) :
  rate s <> 0%Z -> 0 < per_seconds s ->
  snd (wait_if_needed s now now') = Ok tt.
Proof.
  intros Hrate Hp. unfold wait_if_needed.
  destruct (refill_ok s now Hp) as (s1 & -> & Hr1 & Hp1 & _).
  unfold _wait_time. destruct (Qle_bool 1 (tokens s1)); [reflexivity|].
  destruct (Z.eqb_spec (rate s1) 0) as [Hz|_]; [congruence|].
  destruct (negb _); [|reflexivity].
  destruct (refill_ok s1 now' ltac:(rewrite Hp1; exact Hp)) as (s2 & -> & _). reflexivity.
Qed.

Lemma wait_if_needed_zero_rate (s : RateLimiter) (now now' : Q) :
  rate s = 0%Z -> 0 < per_seconds s -> max_tokens s <= 0 ->
  snd (wait_if_needed s now now') = ZeroDivisionError.
Proof.
  intros Hrate Hp Hmax. unfold wait_if_needed.
  destruct (refill_ok s now Hp) as (s1 & -> & Hr1 & _ & _ & _ & Ht1).
  unfold _wait_time.
  destruct (Qle_bool 1 (tokens s1)) eqn:Hfull.
  - apply Qle_bool_iff in Hfull. rewrite Ht1 in Hfull.
    pose proof (Q.le_min_l (max_tokens s)
                  (tokens s + (now - last_refill s) * (inject_Z (rate s) / per_seconds s))).
    lra.
  - rewrite Hr1, Hrate. reflexivity.
Qed.

Local Close Scope Q_scope.

Lemma adaptive_rate_limiter_spec_witness :
  let s := feed_all (AdaptiveRateLimiter_init 10 1 50 0)
                    [Report_success; Report_rate_limit_error; Report_success] in
  1 <= rate (base s) <= 50
  /\ (let s' := feed_all s (repeat Report_success 10) in
      rate (base s') = Z.min 50 (rate (base s) + 1)
      /\ (success_count s = 0 -> success_count s' = 0))
  /\ (let s' := report_rate_limit_error s in
      rate (base s') = Z.max 1 (rate (base s) / 2)
      /\ success_count s' = 0).
Proof.
  apply (adaptive_rate_limiter_spec 10 1 50 0
           [Report_success; Report_rate_limit_error; Report_success]); lia.
Defined.
End rate_limiter_properties.

(** ** The reconciliation loop *)
Section sync_properties.
Import python orm sync_log product_sync sync_service.

(** *** What a computation leaves untouched *)
Section keeps_rules.
Variable R : env -> env -> Prop.
Hypothesis R_refl : forall s, R s s.
Hypothesis R_trans : forall s1 s2 s3, R s1 s2 -> R s2 s3 -> R s1 s3.

Lemma keeps_ret {A : Type} (a : A) : keeps R (mret a).
Proof using R_refl. intros s. apply R_refl. Qed.

Lemma keeps_raise {A : Type} (e : exn) : keeps R (raise (A := A) e).
Proof using R_refl. intros s. apply R_refl. Qed.

Lemma keeps_lift {A : Type} (r : exn + A) : keeps R (lift r).
Proof using R_refl. intros s. destruct r; apply R_refl. Qed.

Lemma keeps_get_db : keeps R get_db.
Proof using R_refl. intros s. apply R_refl. Qed.

Lemma keeps_bind {A B : Type} (m : M A) (k : A -> M B) :
  keeps R m -> (forall a, keeps R (k a)) -> keeps R (mbind k m).
Proof using R_trans.
  intros Hm Hk s. unfold mbind, M_bind, bind.
  specialize (Hm s). destruct (m s) as [[a|e] s1]; cbn in Hm |- *.
  - eapply R_trans; [exact Hm|apply Hk].
  - exact Hm.
Qed.

Lemma keeps_try {A : Type} (m : M A) (h : exn -> M A) :
  keeps R m -> (forall e, keeps R (h e)) -> keeps R (try_except m h).
Proof using R_trans.
  intros Hm Hh s. unfold try_except.
  specialize (Hm s). destruct (m s) as [[a|e] s1]; cbn in Hm |- *.
  - exact Hm.
  - eapply R_trans; [exact Hm|apply Hh].
Qed.
End keeps_rules.

Ltac keeps_auto Hrefl Htrans :=
  repeat first
    [ apply (keeps_ret _ Hrefl)
    | apply (keeps_raise _ Hrefl)
    | apply (keeps_lift _ Hrefl)
    | apply (keeps_get_db _ Hrefl)
    | solve [eauto]
    | apply (keeps_bind _ Htrans); [|intros ?]
    | apply (keeps_try _ Htrans); [|intros ?]
    | match goal with
      | |- keeps _ (match ?x with _ => _ end) => destruct x
      end ].

(** **** The committed rows change only at [commit] *)
Lemma same_committed_refl (s : env) : same_committed s s.
Proof. reflexivity. Qed.

Lemma same_committed_trans (s1 s2 s3 : env) :
  same_committed s1 s2 -> same_committed s2 s3 -> same_committed s1 s3.
Proof. unfold same_committed. congruence. Qed.

Ltac committed_auto := keeps_auto same_committed_refl same_committed_trans.

Lemma put_db_committed (d : database) : keeps same_committed (put_db d).
Proof. intros s. reflexivity. Qed.

Lemma now_committed (rt : runtime) : keeps same_committed (Datetime_now rt).
Proof. intros s. reflexivity. Qed.

Lemma create_committed (values : gmap string pyval) : keeps same_committed (create values).
Proof. intros s. reflexivity. Qed.

Lemma rollback_committed : keeps same_committed rollback.
Proof. intros s. reflexivity. Qed.

Lemma search_committed (name : string) (value : pyval) : keeps same_committed (search name value).
Proof. unfold search. committed_auto. Qed.

Lemma write_committed (pid : Z) (values : gmap string pyval) :
  keeps same_committed (write pid values).
Proof. unfold write. committed_auto. Qed.

Lemma create_log_committed (entry : log_entry) : keeps same_committed (create_log entry).
Proof. unfold create_log. committed_auto. Qed.

Lemma prepare_committed (rt : runtime) (ext : gmap string json) :
  keeps same_committed (_prepare_values_from_external rt ext).
Proof.
  pose proof (now_committed rt).
  unfold _prepare_values_from_external. committed_auto.
Qed.

Lemma sync_single_committed (rt : runtime) (ext : gmap string json) (batch : string)
    (dry_run : bool) :
  keeps same_committed (_sync_single_product rt ext batch dry_run).
Proof.
  pose proof search_committed. pose proof write_committed.
  pose proof create_log_committed. pose proof (prepare_committed rt).
  pose proof (now_committed rt). pose proof create_committed.
  unfold _sync_single_product, search_by_external_id, search_by_sku,
    update_from_external, create_from_external, mark_as_synced,
    log_success, log_operation.
  cbv zeta. committed_auto.
Qed.

Lemma process_one_committed (rt : runtime) (batch : string) (dry_run : bool)
    (rate_limit : Z) (it : item) (s : summary) :
  keeps same_committed (process_one rt batch dry_run rate_limit it s).
Proof.
  pose proof (sync_single_committed rt). pose proof create_log_committed.
  unfold process_one, rate_limiter_wait, log_error, log_operation.
  cbv zeta. committed_auto.
Qed.

Lemma process_committed (rt : runtime) (batch : string) (dry_run : bool)
    (rate_limit : Z) (items : list item) :
  forall s, keeps same_committed (process rt batch dry_run rate_limit items s).
Proof.
  pose proof (process_one_committed rt).
  induction items as [|it items IH]; intros s; cbn [process]; committed_auto.
Qed.

(** **** A dry run changes nothing *)
Lemma unchanged_refl (s : env) : unchanged s s.
Proof. reflexivity. Qed.

Lemma unchanged_trans (s1 s2 s3 : env) : unchanged s1 s2 -> unchanged s2 s3 -> unchanged s1 s3.
Proof. unfold unchanged. congruence. Qed.

Ltac unchanged_auto := keeps_auto unchanged_refl unchanged_trans.

Lemma search_unchanged (name : string) (value : pyval) : keeps unchanged (search name value).
Proof. unfold search. unchanged_auto. Qed.

Lemma dry_sync_single_unchanged (rt : runtime) (ext : gmap string json) (batch : string) :
  keeps unchanged (_sync_single_product rt ext batch true).
Proof.
  pose proof search_unchanged.
  unfold _sync_single_product, search_by_external_id, search_by_sku.
  cbv zeta. unchanged_auto.
Qed.

Lemma dry_process_unchanged (rt : runtime) (batch : string) (rate_limit : Z) (items : list item) :
  forall s, keeps unchanged (process rt batch true rate_limit items s).
Proof.
  pose proof (dry_sync_single_unchanged rt).
  induction items as [|it items IH]; intros s; cbn [process]; [unchanged_auto|].
  unfold process_one, rate_limiter_wait. cbv zeta. unchanged_auto.
Qed.

Lemma dry_try_unchanged (rt : runtime) (response : api_client.result body) (rate_limit : Z)
    (batch : string) (limit : option Z) :
  keeps unchanged (sync_products_try rt response rate_limit batch true limit).
Proof.
  pose proof (dry_process_unchanged rt).
  unfold sync_products_try, rate_limiter_wait. cbv zeta. unchanged_auto.
Qed.

(** *** Abort of a run *)

(** When the [try] block raises, nothing has been committed by it. *)
Lemma try_raise_committed (rt : runtime) (response : api_client.result body)
    (rate_limit : Z) (batch : string) (dry_run : bool) (limit : option Z)
    (s s1 : env) (e : exn) :
  sync_products_try rt response rate_limit batch dry_run limit s = (Raise e, s1) ->
  committed s1 = committed s.
Proof.
  unfold sync_products_try, rate_limiter_wait. cbv zeta.
  unfold mbind, M_bind, bind, mret, M_ret, ret, raise.
  destruct (rate_limit =? 0); [intros [= _ <-]; reflexivity|].
  destruct response as [[[items|]|]|msg]; try (intros [= _ <-]; reflexivity).
  match goal with
  | |- context [process ?a ?b ?c ?d ?l ?x s] =>
      pose proof (process_committed a b c d l x s) as Hc;
      destruct (process a b c d l x s) as [[sm|e'] s2]
  end; cbn in Hc.
  - destruct dry_run; intros [=].
  - intros [= _ <-]. exact Hc.
Qed.

(** C2 (as the code has it): when the [try] block of [sync_products]
    raises, the same exception reaches the caller, and the transaction is
    rolled back first (a dry run has written nothing): the open transaction
    is left as of the last commit, so the products and log rows written
    during the run are discarded. *)
Theorem sync_products_abort_rolls_back (rt : runtime) (response : api_client.result body)
    (rate_limit : Z) (batch : string) (dry_run : bool) (limit : option Z)
    (s s1 : env) (e : exn) :
  sync_products_try rt response rate_limit batch dry_run limit s = (Raise e, s1) ->
  exists s',
    sync_products rt response rate_limit batch dry_run limit s = (Raise e, s')
    /\ committed s' = committed s
    /\ cr s' = (if dry_run then cr s else committed s).
Proof.
  intros Htry. unfold sync_products, try_except. rewrite Htry.
  destruct dry_run.
  - exists s1. split; [reflexivity|].
    pose proof (dry_try_unchanged rt response rate_limit batch limit s) as Hsame.
    rewrite Htry in Hsame. cbn in Hsame. unfold unchanged in Hsame. subst s1.
    split; reflexivity.
  - pose proof (try_raise_committed _ _ _ _ _ _ _ _ _ Htry) as Hc.
    eexists. split; [reflexivity|]. cbn. split; exact Hc.
Qed.

Lemma sync_products_abort_rolls_back_witness :
  exists s',
    sync_products (host (fun _ => 0))
      (api_client.Return (Some (Some [Obj {[ "id" := JInt 1; "sku" := JStr "A" ]}; NotObj JNull])))
      10 "run-1" false None empty_env = (Raise AttributeError, s')
    /\ committed s' = committed empty_env
    /\ cr s' = committed empty_env.
Proof.
  eapply (sync_products_abort_rolls_back (host (fun _ => 0))
            (api_client.Return (Some (Some [Obj {[ "id" := JInt 1; "sku" := JStr "A" ]}; NotObj JNull])))
            10 "run-1" false None empty_env).
  vm_compute. reflexivity.
Defined.

(** C2, as stated, fails: the first record is created and logged, the
    second element of the payload is not an object, the run aborts with
    [AttributeError] and the product and the log row are gone. *)
Lemma abort_discards_recorded_writes :
  let rt := host (fun _ => 0) in
  let record : gmap string json := {[ "id" := JInt 1; "sku" := JStr "A"; "name" := JStr "P" ]} in
  let after_first :=
    snd (process_one rt "run-1" false 10 (Obj record) (summary_init "run-1") empty_env) in
  length (products (cr after_first)) = 1%nat
  /\ length (logs (cr after_first)) = 1%nat
  /\ sync_products rt (api_client.Return (Some (Some [Obj record; NotObj JNull])))
       10 "run-1" false None empty_env
     = (Raise AttributeError, mkEnv (mkDatabase [] []) (mkDatabase [] []) 2 1).
Proof. vm_compute. repeat split; reflexivity. Qed.

(** *** Records that fail validation *)

Lemma sync_single_invalid (rt : runtime) (d : gmap string json) (batch : string)
    (dry_run : bool) (s : env) :
  py_str rt (dict_get d "id" (JStr "")) = "" \/ truthy (dict_get d "sku" (JStr "")) = false ->
  _sync_single_product rt d batch dry_run s = (Raise ValueError, s).
Proof.
  intros Hbad. unfold _sync_single_product. cbv zeta.
  replace (String.eqb (py_str rt (dict_get d "id" (JStr ""))) ""
           || negb (truthy (dict_get d "sku" (JStr "")))) with true; [reflexivity|].
  symmetry. apply orb_true_iff. destruct Hbad as [-> | ->]; [left|right]; reflexivity.
Qed.

(** A record the validation rejects (the text of its identifier is empty
    or its SKU is falsy) adds one to the error count, writes exactly one
    error log row when the run is not a dry run and none when it is, changes
    nothing else, and the remaining records are processed from there like a
    batch of their own. *)
Theorem invalid_record_is_counted_and_skipped (rt : runtime) (batch : string)
    (dry_run : bool) (rate_limit : Z) (d : gmap string json) (rest : list item)
    (sm : summary) (s : env) :
  rate_limit <> 0 ->
  py_str rt (dict_get d "id" (JStr "")) = "" \/ truthy (dict_get d "sku" (JStr "")) = false ->
  process rt batch dry_run rate_limit (Obj d :: rest) sm s =
  process rt batch dry_run rate_limit rest (add_error sm)
    (if dry_run then s
     else with_log s (mkLog Op_error St_error None
                        (py_str rt (dict_get d "id" (JStr "")))
                        (dict_get d "sku" (JStr "")) batch)).
Proof.
  intros Hrate Hbad. cbn [process].
  unfold process_one, rate_limiter_wait, mbind, M_bind, bind, mret, M_ret, ret, try_except.
  rewrite (sync_single_invalid rt d batch dry_run s Hbad).
  destruct (Z.eqb_spec rate_limit 0) as [|_]; [contradiction|].
  destruct dry_run; reflexivity.
Qed.

Lemma invalid_record_is_counted_and_skipped_witness :
  let rt := host (fun _ => 0) in
  let d : gmap string json := {[ "id" := JInt 7; "name" := JStr "no sku" ]} in
  let rest := [Obj {[ "id" := JInt 1; "sku" := JStr "A" ]}] in
  process rt "run-1" false 10 (Obj d :: rest) (summary_init "run-1") empty_env =
  process rt "run-1" false 10 rest (add_error (summary_init "run-1"))
    (with_log empty_env (mkLog Op_error St_error None
                           (py_str rt (dict_get d "id" (JStr "")))
                           (dict_get d "sku" (JStr "")) "run-1")).
Proof.
  intros rt d rest.
  apply (invalid_record_is_counted_and_skipped rt "run-1" false 10 d rest
           (summary_init "run-1") empty_env).
  - lia.
  - right. vm_compute. reflexivity.
Defined.

(** In a dry run the record without SKU is counted as an error and no log
    row is written. *)
Lemma dry_run_error_is_not_logged :
  sync_products (host (fun _ => 0))
    (api_client.Return (Some (Some [Obj {[ "id" := JInt 7; "name" := JStr "no sku" ]}])))
    10 "run-1" true None empty_env
  = (Ok (mkSummary 1 0 0 0 0 0 0 1 "run-1"), empty_env).
Proof. vm_compute. reflexivity. Qed.

(** *** Re-synchronising unchanged data *)

(** C1 (the code departs from it): a catalog of one valid record is
    synchronised into an empty database; when the same catalog is
    synchronised again after the clock has moved, the record is classified
    as an update, not as a skip, and [update_from_external] on the
    identical data returns [True] and writes. *)
Theorem resync_of_unchanged_record_updates :
  let rt := host (fun n => Z.of_nat n) in
  let record : gmap string json := {[ "id" := JInt 1; "sku" := JStr "A"; "name" := JStr "P" ]} in
  let catalog := api_client.Return (Some (Some [Obj record])) in
  let first := sync_products rt catalog 10 "run-1" false None empty_env in
  let second := sync_products rt catalog 10 "run-2" false None (snd first) in
  let again := update_from_external rt 1 record (snd first) in
  fst first = Ok (mkSummary 1 1 0 0 0 0 0 0 "run-1")
  /\ fst second = Ok (mkSummary 1 0 0 1 0 0 0 0 "run-2")
  /\ length (products (cr (snd second))) = 1%nat
  /\ fst again = Ok true
  /\ read (cr (snd again)) 1 "last_sync_date" <> read (cr (snd first)) 1 "last_sync_date".
Proof. vm_compute. repeat split; try reflexivity. discriminate. Qed.

(** With a clock that has not moved between the two runs, the second run
    does skip: the difference above is the [last_sync_date] alone. *)
Lemma resync_within_the_same_second_skips :
  let rt := host (fun _ => 0) in
  let record : gmap string json := {[ "id" := JInt 1; "sku" := JStr "A"; "name" := JStr "P" ]} in
  let catalog := api_client.Return (Some (Some [Obj record])) in
  let first := sync_products rt catalog 10 "run-1" false None empty_env in
  let second := sync_products rt catalog 10 "run-2" false None (snd first) in
  fst second = Ok (mkSummary 1 0 0 0 0 1 0 0 "run-2")
  /\ products (cr (snd second)) = products (cr (snd first)).
Proof. vm_compute. split; reflexivity. Qed.

(** *** What the sync writes on a product *)

Lemma write_run (pid : Z) (values : gmap string pyval) (s : env) :
  write pid values s =
  (Ok tt, mkEnv (mkDatabase (List.map (patch pid values) (products (cr s))) (logs (cr s)))
                (committed s) (next_id s) (ticks s)).
Proof. reflexivity. Qed.

Lemma browse_patch (pid : Z) (values : gmap string pyval) (l : list product) (lg : list log_entry) :
  browse (mkDatabase (List.map (patch pid values) l) lg) pid =
  option_map (fun q => mkProduct (id q) (values ∪ fields q)) (browse (mkDatabase l lg) pid).
Proof.
  unfold browse. cbn. induction l as [|q l IH]; [reflexivity|].
  cbn [List.map List.find]. destruct (id q =? pid) eqn:E.
  - replace (patch pid values q) with (mkProduct (id q) (values ∪ fields q))
      by (unfold patch; rewrite E; reflexivity).
    cbn. rewrite E. reflexivity.
  - replace (patch pid values q) with q by (unfold patch; rewrite E; reflexivity).
    rewrite E. exact IH.
Qed.


Lemma read_patch (pid : Z) (values : gmap string pyval) (l : list product)
    (lg : list log_entry) (name : string) :
  read (mkDatabase (List.map (patch pid values) l) lg) pid name =
  match values !! name with
  | Some v => match browse (mkDatabase l lg) pid with Some _ => v | None => PFalse end
  | None => read (mkDatabase l lg) pid name
  end.
Proof.
  unfold read. rewrite browse_patch.
  destruct (browse (mkDatabase l lg) pid) as [q|]; cbn [option_map].
  - unfold getattr, dict_get. cbn [fields]. rewrite lookup_union.
    destruct (values !! name) as [v|]; destruct (fields q !! name); reflexivity.
  - destruct (values !! name); reflexivity.
Qed.

Lemma Ok_pair_inj {A : Type} (a b : A) (s s' : env) :
  (Ok a, s) = (Ok b, s') -> a = b /\ s = s'.
Proof. intros [= -> ->]. split; reflexivity. Qed.

Lemma prepare_run (rt : runtime) (ext : gmap string json) (s s0 : env)
    (values : gmap string pyval) :
  _prepare_values_from_external rt ext s = (Ok values, s0) ->
  exists lp sp,
    py_float rt (dict_get ext "list_price" (JFloat 0)) = inr lp
    /\ py_float rt (dict_get ext "standard_price" (JFloat 0)) = inr sp
    /\ values = filter (fun kv : string * pyval => is_blank kv.2 = false)
                       (raw_values rt ext lp sp (clock rt (ticks s)))
    /\ s0 = mkEnv (cr s) (committed s) (next_id s) (S (ticks s)).
Proof.
  unfold _prepare_values_from_external, mbind, M_bind, bind, lift.
  destruct (py_float rt (dict_get ext "list_price" (JFloat 0))) as [e|lp]; [intros [=]|].
  destruct (py_float rt (dict_get ext "standard_price" (JFloat 0))) as [e|sp]; [intros [=]|].
  unfold ret, Datetime_now, mret, M_ret, ret. intros H.
  apply Ok_pair_inj in H as [<- <-].
  exists lp, sp. repeat split; reflexivity.
Qed.

Lemma prepared_not_blank (rt : runtime) (ext : gmap string json) (s s0 : env)
    (values : gmap string pyval) (k : string) (v : pyval) :
  _prepare_values_from_external rt ext s = (Ok values, s0) ->
  values !! k = Some v -> is_blank v = false.
Proof.
  intros Hp Hk. destruct (prepare_run _ _ _ _ _ Hp) as (lp & sp & _ & _ & -> & _).
  apply map_lookup_filter_Some in Hk as [_ Hv]. exact Hv.
Qed.

Lemma prepared_drops_blank (rt : runtime) (ext : gmap string json) (s s0 : env)
    (values : gmap string pyval) (key field : string) :
  _prepare_values_from_external rt ext s = (Ok values, s0) ->
  In (key, field) text_fields ->
  is_blank (PJson (dict_get ext key (JStr ""))) = true ->
  values !! field = None.
Proof.
  intros Hp Hin Hblank. destruct (prepare_run _ _ _ _ _ Hp) as (lp & sp & _ & _ & -> & _).
  apply map_lookup_filter_None. right. intros v Hv.
  cbn [text_fields In] in Hin.
  destruct Hin as [Hin|[Hin|[Hin|[Hin|[Hin|[]]]]]];
    apply pair_equal_spec in Hin as [<- <-];
    unfold raw_values in Hv; simplify_map_eq; congruence.
Qed.

(** How [update_from_external] ends: either nothing differs and nothing
    is written, or the prepared values are written on the record. *)
Lemma update_run (rt : runtime) (self : Z) (ext : gmap string json) (s s' : env) (b : bool) :
  update_from_external rt self ext s = (Ok b, s') ->
  exists values s0,
    _prepare_values_from_external rt ext s = (Ok values, s0)
    /\ b = existsb (fun kv : string * pyval => negb (py_eq (read (cr s) self kv.1) kv.2))
                   (map_to_list values)
    /\ s' = (if b then snd (write self values s0) else s0).
Proof.
  intros H. unfold update_from_external, mbind, M_bind, bind in H.
  destruct (_prepare_values_from_external rt ext s) as [[values|e] s0] eqn:Hp; [|discriminate H].
  destruct (prepare_run _ _ _ _ _ Hp) as (lp & sp & _ & _ & _ & Hs0).
  exists values, s0. split; [reflexivity|].
  unfold get_db in H. cbv beta iota in H.
  assert (Hcr : cr s0 = cr s) by (rewrite Hs0; reflexivity).
  rewrite Hcr in H.
  destruct (existsb (fun kv : string * pyval => negb (py_eq (read (cr s) self kv.1) kv.2))
                    (map_to_list values)) eqn:Hex.
  - rewrite write_run in H. unfold mret, M_ret, ret in H.
    apply Ok_pair_inj in H as [<- <-]. split; reflexivity.
  - unfold mret, M_ret, ret in H. apply Ok_pair_inj in H as [<- <-]. split; reflexivity.
Qed.

(** C10: the values [_prepare_values_from_external] hands to create and
    update contain no [None] and no empty string; so [update_from_external]
    leaves a local field as it is when the name, description, barcode or SKU
    of the payload is empty, and every field it does change receives a value
    that is neither [None] nor empty. *)
Theorem update_never_blanks_a_field (rt : runtime) (self : Z) (ext : gmap string json)
    (s s' : env) (b : bool) :
  update_from_external rt self ext s = (Ok b, s') ->
  (exists values s0,
     _prepare_values_from_external rt ext s = (Ok values, s0)
     /\ forall k v, values !! k = Some v -> is_blank v = false)
  /\ (forall key field,
        In (key, field) text_fields ->
        is_blank (PJson (dict_get ext key (JStr ""))) = true ->
        read (cr s') self field = read (cr s) self field)
  /\ (forall field,
        read (cr s') self field <> read (cr s) self field ->
        is_blank (read (cr s') self field) = false).
Proof.
  intros H. destruct (update_run _ _ _ _ _ _ H) as (values & s0 & Hp & Hb & Hs').
  destruct (prepare_run _ _ _ _ _ Hp) as (lp & sp & _ & _ & _ & Hs0).
  assert (Hcr : cr s0 = cr s) by (rewrite Hs0; reflexivity).
  assert (Hread : forall field,
            read (cr s') self field =
            if b then
              match values !! field with
              | Some v => match browse (cr s) self with Some _ => v | None => PFalse end
              | None => read (cr s) self field
              end
            else read (cr s) self field).
  { intros field. rewrite Hs'. destruct b.
    - rewrite write_run. cbn [snd cr]. rewrite read_patch, Hcr.
      destruct (cr s); reflexivity.
    - rewrite Hcr. reflexivity. }
  split; [|split].
  - exists values, s0. split; [exact Hp|]. intros k v. apply (prepared_not_blank _ _ _ _ _ _ _ Hp).
  - intros key field Hin Hblank. rewrite Hread.
    rewrite (prepared_drops_blank _ _ _ _ _ _ _ Hp Hin Hblank).
    destruct b; reflexivity.
  - intros field Hdiff. rewrite Hread in Hdiff |- *. destruct b; [|congruence].
    destruct (values !! field) as [v|] eqn:Hv; [|congruence].
    unfold read in Hdiff |- *.
    destruct (browse (cr s) self) as [q|]; [|congruence].
    apply (prepared_not_blank _ _ _ _ _ _ _ Hp Hv).
Qed.

Lemma update_never_blanks_a_field_witness :
  let rt := host (fun n => Z.of_nat n) in
  let stored : gmap string json := {[ "id" := JInt 1; "sku" := JStr "A"; "name" := JStr "P" ]} in
  let ext : gmap string json := {[ "id" := JInt 1; "sku" := JStr "A"; "name" := JStr "" ]} in
  let s := snd (create_from_external rt stored empty_env) in
  let s' := snd (update_from_external rt 1 ext s) in
  (exists values s0,
     _prepare_values_from_external rt ext s = (Ok values, s0)
     /\ forall k v, values !! k = Some v -> is_blank v = false)
  /\ (forall key field,
        In (key, field) text_fields ->
        is_blank (PJson (dict_get ext key (JStr ""))) = true ->
        read (cr s') 1 field = read (cr s) 1 field)
  /\ (forall field,
        read (cr s') 1 field <> read (cr s) 1 field ->
        is_blank (read (cr s') 1 field) = false).
Proof.
  intros rt stored ext s s'.
  apply (update_never_blanks_a_field rt 1 ext s s' true).
  vm_compute. reflexivity.
Defined.

Example blank_name_keeps_local_name :
  let rt := host (fun n => Z.of_nat n) in
  let stored : gmap string json := {[ "id" := JInt 1; "sku" := JStr "A"; "name" := JStr "P" ]} in
  let ext : gmap string json := {[ "id" := JInt 1; "sku" := JStr "A"; "name" := JStr "" ]} in
  let s := snd (create_from_external rt stored empty_env) in
  let s' := snd (update_from_external rt 1 ext s) in
  read (cr s') 1 "name" = PJson (JStr "P").
Proof. vm_compute. reflexivity. Qed.
(** *** The SKU fallback *)












End sync_properties.

(** ** More on the client *)
Section api_client_more.
Import api_client api_client_calls python.

Lemma backoff_bounds (n : Z) : (0 < _calculate_backoff n)%Q /\ (_calculate_backoff n <= 60)%Q.
Proof.
  unfold _calculate_backoff. cbv zeta. split.
  - apply Q.min_glb_lt; [|reflexivity]. apply Qpower_0_lt. reflexivity.
  - apply Q.le_min_r.
Qed.

(** X: for the attempts the loop numbers, 1 and up, the backoff is
    positive, never above 60 seconds, never decreases from one attempt to
    the next, and is 60 from the seventh attempt on. *)
Theorem calculate_backoff_shape (a b : Z) :
  1 <= a -> a <= b ->
  (0 < _calculate_backoff a)%Q
  /\ (_calculate_backoff a <= _calculate_backoff b)%Q
  /\ (_calculate_backoff b <= 60)%Q
  /\ (7 <= a -> _calculate_backoff a == 60).
Proof.
  intros Ha Hab. split; [apply backoff_bounds|]. split; [|split; [apply backoff_bounds|]].
  - unfold _calculate_backoff. cbv zeta.
    apply Q.min_le_compat_r. apply Qpower_le_compat_l; [lia|]. discriminate.
  - intros H7. rewrite backoff_closed_form by lia.
    assert (2 ^ 6 <= 2 ^ (a - 1)) by (apply Z.pow_le_mono_r; lia).
    rewrite Z.min_r by lia. reflexivity.
Qed.

Lemma calculate_backoff_shape_witness :
  (0 < _calculate_backoff 3)%Q
  /\ (_calculate_backoff 3 <= _calculate_backoff 9)%Q
  /\ (_calculate_backoff 9 <= 60)%Q
  /\ (7 <= 3 -> _calculate_backoff 3 == 60).
Proof. apply (calculate_backoff_shape 3 9); lia. Defined.

Section more_loop_lemmas.
Context {J : Type}.
Variable self : APIClient.
Variable net : Z -> outcome J.

Lemma request_count_app (tr tr' : list event) :
  request_count (tr ++ tr') = request_count tr + request_count tr'.
Proof.
  unfold request_count. rewrite List.filter_app, List.length_app. lia.
Qed.

(** The loop makes at most one request per remaining attempt and sleeps
    only backoff delays. *)
Lemma request_loop_bounded (fuel : nat) :
  forall (a : Z) (last : option string) (tr tr' : list event) (r : result J),
    request_loop self net fuel a last tr = Some (r, tr') ->
    Forall sleep_ok tr ->
    request_count tr' <= request_count tr + Z.max 0 (max_retries self - a)
    /\ Forall sleep_ok tr'.
Proof using Type.
  induction fuel as [|fuel IH]; intros a last tr tr' r Hrun Hok; cbn [request_loop] in Hrun.
  - destruct (Z.ltb_spec a (max_retries self)); [discriminate|].
    injection Hrun as _ <-. split; [lia|assumption].
  - destruct (Z.ltb_spec a (max_retries self)) as [Hlt|Hge].
    2:{ injection Hrun as _ <-. split; [lia|assumption]. }
    assert (Hreq : Forall sleep_ok (tr ++ [Request (a + 1)])).
    { apply Forall_app. split; [assumption|]. repeat constructor. }
    assert (Hslp : Forall sleep_ok ((tr ++ [Request (a + 1)]) ++ [Sleep (_calculate_backoff (a + 1))])).
    { apply Forall_app. split; [assumption|]. constructor; [|constructor]. apply backoff_bounds. }
    assert (Hc1 : request_count (tr ++ [Request (a + 1)]) = request_count tr + 1)
      by (rewrite request_count_app; reflexivity).
    assert (Hc2 : request_count ((tr ++ [Request (a + 1)]) ++ [Sleep (_calculate_backoff (a + 1))])
                  = request_count tr + 1)
      by (rewrite request_count_app, Hc1;
          replace (request_count [Sleep (_calculate_backoff (a + 1))]) with 0 by reflexivity; lia).
    destruct (net (a + 1)) as [st js text|e|e|e].
    + destruct ((200 <=? st) && (st <? 300)).
      { injection Hrun as _ <-. split; [lia|assumption]. }
      destruct (_should_retry self st (a + 1)).
      * apply IH in Hrun as [Hn Hs]; [|assumption]. split; [lia|assumption].
      * injection Hrun as _ <-. split; [lia|assumption].
    + destruct (a + 1 <? max_retries self);
        apply IH in Hrun as [Hn Hs]; try assumption; (split; [lia|assumption]).
    + destruct (a + 1 <? max_retries self);
        apply IH in Hrun as [Hn Hs]; try assumption; (split; [lia|assumption]).
    + destruct (a + 1 <? max_retries self);
        apply IH in Hrun as [Hn Hs]; try assumption; (split; [lia|assumption]).
Qed.

(** A payload is returned only from a 2xx response, the last one requested. *)
Lemma request_loop_return_sound (fuel : nat) :
  forall (a : Z) (last : option string) (tr tr' : list event) (payload : option J),
    request_loop self net fuel a last tr = Some (Return payload, tr') ->
    exists k st text,
      a < k <= max_retries self
      /\ net k = Response st payload text
      /\ 200 <= st < 300
      /\ request_count tr' = request_count tr + (k - a).
Proof using Type.
  induction fuel as [|fuel IH]; intros a last tr tr' payload Hrun; cbn [request_loop] in Hrun.
  - destruct (a <? max_retries self); discriminate.
  - destruct (Z.ltb_spec a (max_retries self)) as [Hlt|Hge]; [|discriminate].
    assert (Hc1 : request_count (tr ++ [Request (a + 1)]) = request_count tr + 1)
      by (rewrite request_count_app; reflexivity).
    assert (Hc2 : request_count ((tr ++ [Request (a + 1)]) ++ [Sleep (_calculate_backoff (a + 1))])
                  = request_count tr + 1)
      by (rewrite request_count_app, Hc1;
          replace (request_count [Sleep (_calculate_backoff (a + 1))]) with 0 by reflexivity; lia).
    assert (Hnext : forall last0 tr0,
              request_count tr0 = request_count tr + 1 ->
              request_loop self net fuel (a + 1) last0 tr0 = Some (Return payload, tr') ->
              exists k st text,
                a < k <= max_retries self /\ net k = Response st payload text
                /\ 200 <= st < 300 /\ request_count tr' = request_count tr + (k - a)).
    { intros last0 tr0 Hc Hr. apply IH in Hr as (k & st & text & Hk & Hn & H2 & Hcount).
      exists k, st, text. repeat split; try assumption; lia. }
    destruct (net (a + 1)) as [st js text|e|e|e] eqn:Hnet.
    + destruct ((200 <=? st) && (st <? 300)) eqn:H2xx.
      { injection Hrun as <- <-. exists (a + 1), st, text.
        apply andb_true_iff in H2xx. repeat split; try assumption; lia. }
      destruct (_should_retry self st (a + 1)); [|discriminate].
      (eapply Hnext; [|eassumption]; assumption).
    + destruct (a + 1 <? max_retries self); (eapply Hnext; [|eassumption]; assumption).
    + destruct (a + 1 <? max_retries self); (eapply Hnext; [|eassumption]; assumption).
    + destruct (a + 1 <? max_retries self); (eapply Hnext; [|eassumption]; assumption).
Qed.
End more_loop_lemmas.

(** X: whatever the server does, [_make_request] ends, makes at most
    [max_retries] requests (none when [max_retries <= 0]) and sleeps only
    backoff delays, each positive and at most 60 seconds. *)
Theorem make_request_bounded {J : Type} (self : APIClient) (net : Z -> outcome J) :
  exists r tr,
    _make_request self net = Some (r, tr)
    /\ request_count tr <= Z.max 0 (max_retries self)
    /\ Forall sleep_ok tr.
Proof.
  destruct (request_loop_total self net (Z.to_nat (max_retries self)) 0 None [] ltac:(lia))
    as (r & tr & Hrun).
  cbn [app] in Hrun. exists r, tr. split; [exact Hrun|].
  apply request_loop_bounded in Hrun as [Hn Hs]; [|constructor].
  change (request_count []) with 0 in Hn. split; [lia|exact Hs].
Qed.

(** X: a payload returned by [_make_request] is the body of a 2xx response,
    received at the last request of the run; no error response is ever
    returned as a result. *)
Theorem make_request_returns_only_2xx {J : Type} (self : APIClient) (net : Z -> outcome J)
    (payload : option J) (tr : list event) :
  _make_request self net = Some (Return payload, tr) ->
  exists k st text,
    1 <= k <= max_retries self
    /\ net k = Response st payload text
    /\ 200 <= st < 300
    /\ request_count tr = k.
Proof.
  intros Hrun. apply request_loop_return_sound in Hrun as (k & st & text & Hk & Hn & H2 & Hc).
  exists k, st, text. change (request_count []) with 0 in Hc. repeat split; try assumption; lia.
Qed.

Lemma make_request_returns_only_2xx_witness :
  let self := mkAPIClient "http://test-api:8000" 5 3 in
  let net := fun j : Z => if j =? 1 then Response 500 None "" else Response 201 (Some 7) "" in
  exists k st text,
    1 <= k <= max_retries self
    /\ net k = Response st (Some 7) text
    /\ 200 <= st < 300
    /\ request_count [Request 1; Sleep 1; Request 2] = k.
Proof.
  intros self net.
  apply (make_request_returns_only_2xx self net (Some 7) [Request 1; Sleep 1; Request 2]).
  vm_compute. reflexivity.
Defined.

(** X: the first 2xx response that follows only retried failures is what
    [_make_request] returns: its parsed body, or [None] when the body is
    not JSON (a 204 included), after exactly that many requests. *)
Theorem make_request_first_success {J : Type} (self : APIClient) (net : Z -> outcome J)
    (k st : Z) (js : option J) (text : string) :
  1 <= k <= max_retries self ->
  (forall j, 1 <= j < k -> retryable (net j) = true) ->
  net k = Response st js text ->
  200 <= st < 300 ->
  _make_request self net = Some (Return js, retries_trace 0 (Z.to_nat (k - 1)) ++ [Request k]).
Proof.
  intros Hk Hret Hnet H2.
  destruct (make_request_reaches self net k Hk Hret) as (last & fuel & -> & _).
  cbn [request_loop]. destruct (Z.ltb_spec (k - 1) (max_retries self)); [|lia].
  replace (k - 1 + 1) with k by lia. rewrite Hnet.
  replace ((200 <=? st) && (st <? 300)) with true; [reflexivity|].
  symmetry. apply andb_true_iff. lia.
Qed.

Lemma make_request_first_success_witness :
  let self := mkAPIClient "http://test-api:8000" 5 3 in
  let net := fun j : Z => if j =? 1 then Timeout "slow" else Response (J := nat) 204 None "" in
  _make_request self net = Some (Return None, retries_trace 0 (Z.to_nat (2 - 1)) ++ [Request 2]).
Proof.
  intros self net.
  apply (make_request_first_success self net 2 204 None "").
  - cbn. lia.
  - intros j Hj. assert (j = 1) as -> by lia. reflexivity.
  - reflexivity.
  - lia.
Defined.

(** X: with [max_retries <= 0] no request is made at all and the call
    fails with the exhaustion message, which then names no cause. *)
Theorem make_request_without_attempts {J : Type} (self : APIClient) (net : Z -> outcome J) :
  max_retries self <= 0 ->
  _make_request self net =
  Some (Raise_APIClientError
          ("Request failed after " +:+ str_of_int (max_retries self) +:+ " attempts"), []).
Proof.
  intros Hmax. unfold _make_request.
  destruct (Z.to_nat (max_retries self)); cbn [request_loop];
    destruct (Z.ltb_spec 0 (max_retries self)); (lia || reflexivity).
Qed.

Lemma make_request_without_attempts_witness :
  _make_request (J := unit) (mkAPIClient "http://test-api:8000" 5 0) (fun _ => Response 200 None "") =
  Some (Raise_APIClientError ("Request failed after " +:+ str_of_int 0 +:+ " attempts"), []).
Proof.
  apply (make_request_without_attempts (mkAPIClient "http://test-api:8000" 5 0)). cbn. lia.
Defined.

(** X: every status that is neither 2xx nor 5xx, 429 or 408 (a 1xx or 3xx
    as much as a 4xx) ends the run at the request that received it, with
    the client-error message and without a sleep after it. *)
Theorem other_statuses_are_terminal {J : Type} (self : APIClient) (net : Z -> outcome J)
    (k st : Z) (js : option J) (text : string) :
  1 <= k <= max_retries self ->
  (forall j, 1 <= j < k -> retryable (net j) = true) ->
  net k = Response st js text ->
  ~ 200 <= st < 300 ->
  retryable (net k) = false ->
  _make_request self net =
  Some (Raise_APIClientError ("Client error: " +:+ str_of_int st +:+ " - " +:+ text),
        retries_trace 0 (Z.to_nat (k - 1)) ++ [Request k]).
Proof.
  intros Hk Hret Hnet H2 Hterm. rewrite Hnet in Hterm. cbn in Hterm.
  apply (make_request_stops_at self net k st js text Hk Hret Hnet).
  - apply andb_false_iff. lia.
  - unfold _should_retry. destruct (max_retries self <=? k); [reflexivity|].
    apply orb_false_iff in Hterm as [Hterm H408]. apply orb_false_iff in Hterm as [H5 H429].
    rewrite H5, H429, H408. reflexivity.
Qed.

Lemma other_statuses_are_terminal_witness :
  let self := mkAPIClient "http://test-api:8000" 5 3 in
  let net := fun j : Z => Response (J := unit) 302 None "Found" in
  _make_request self net =
  Some (Raise_APIClientError ("Client error: " +:+ str_of_int 302 +:+ " - " +:+ "Found"),
        retries_trace 0 (Z.to_nat (1 - 1)) ++ [Request 1]).
Proof.
  intros self net.
  apply (other_statuses_are_terminal self net 1 302 None "Found").
  - cbn. lia.
  - intros j Hj. lia.
  - reflexivity.
  - lia.
  - reflexivity.
Defined.

Lemma make_request_exhausted_on_exception_witness :
  let self := mkAPIClient "http://test-api:8000" 5 3 in
  let net := fun j : Z => if j =? 3 then ConnectionError "refused" else Response (J := unit) 503 None "" in
  _make_request self net =
  Some (Raise_APIClientError (exhausted_msg self (Some "refused")),
        retries_trace 0 (Z.to_nat (max_retries self - 1)) ++ [Request (max_retries self)]).
Proof.
  intros self net.
  apply (make_request_exhausted_on_exception self net "refused").
  - cbn. lia.
  - intros j Hj. cbn in Hj. assert (j = 1 \/ j = 2) as [-> | ->] by lia; reflexivity.
  - right. left. reflexivity.
Defined.

End api_client_more.

(** ** More on the rate limiters *)
Section rate_limiter_more.
Import rate_limiter.
Local Open Scope Q_scope.








Local Close Scope Q_scope.

(** *** The adaptive limiter *)

Lemma halving_bound (mn r : Z) (n : nat) :
  0 <= mn <= r ->
  Z.max mn (Z.max mn (r / 2) / 2 ^ Z.of_nat n) = Z.max mn (r / 2 ^ Z.of_nat (S n)).
Proof.
  intros H.
  assert (Hpow : 0 < 2 ^ Z.of_nat n) by (apply Z.pow_pos_nonneg; lia).
  replace (2 ^ Z.of_nat (S n)) with (2 * 2 ^ Z.of_nat n)
    by (rewrite Nat2Z.inj_succ, Z.pow_succ_r; lia).
  rewrite <- Z.div_div by lia.
  destruct (Z.le_gt_cases mn (r / 2)) as [Hge|Hlt].
  - rewrite (Z.max_r mn (r / 2)) by lia. reflexivity.
  - rewrite (Z.max_l mn (r / 2)) by lia.
    assert (mn / 2 ^ Z.of_nat n <= mn) by (apply Z.div_le_upper_bound; nia).
    assert (r / 2 / 2 ^ Z.of_nat n <= mn / 2 ^ Z.of_nat n) by (apply Z.div_le_mono; lia).
    lia.
Qed.

Lemma errors_closed_form (n : nat) :
  forall s : AdaptiveRateLimiter,
    0 <= min_rate s <= rate (base s) ->
    let s' := feed_all s (repeat Report_rate_limit_error n) in
    rate (base s') = Z.max (min_rate s) (rate (base s) / 2 ^ Z.of_nat n)
    /\ min_rate s' = min_rate s /\ max_rate s' = max_rate s
    /\ (n <> O -> success_count s' = 0).
Proof.
  induction n as [|n IH]; intros s Hs; cbv zeta.
  - cbn [repeat feed_all fold_left]. rewrite Z.pow_0_r, Z.div_1_r.
    repeat split; [lia|congruence].
  - cbn [repeat feed_all fold_left feed].
    set (s1 := report_rate_limit_error s).
    assert (Hr1 : rate (base s1) = Z.max (min_rate s) (rate (base s) / 2)) by reflexivity.
    assert (Hm1 : min_rate s1 = min_rate s) by reflexivity.
    assert (Hx1 : max_rate s1 = max_rate s) by reflexivity.
    assert (Hc1 : success_count s1 = 0) by reflexivity.
    specialize (IH s1 ltac:(rewrite Hm1, Hr1; lia)). cbv zeta in IH.
    fold (feed_all s1 (repeat Report_rate_limit_error n)).
    destruct IH as (IHr & IHm & IHx & IHc). rewrite IHr, IHm, IHx, Hm1, Hx1, Hr1.
    split; [apply halving_bound; lia|]. repeat split.
    intros _. destruct n as [|n]; [exact Hc1|apply IHc; discriminate].
Qed.

Lemma successes_closed_form (n : nat) :
  forall s : AdaptiveRateLimiter,
    success_count s = 0 -> rate (base s) <= max_rate s ->
    let s' := feed_all s (repeat Report_success (10 * n)) in
    rate (base s') = Z.min (max_rate s) (rate (base s) + Z.of_nat n)
    /\ success_count s' = 0
    /\ min_rate s' = min_rate s /\ max_rate s' = max_rate s.
Proof.
  induction n as [|n IH]; intros s Hc Hle; cbv zeta.
  - replace (10 * 0)%nat with 0%nat by lia.
    cbn [repeat feed_all fold_left]. repeat split; [lia|exact Hc].
  - replace (10 * S n)%nat with (10 + 10 * n)%nat by lia.
    rewrite repeat_app. unfold feed_all. rewrite fold_left_app.
    pose proof (ten_successes s ltac:(lia)) as Hten. cbv zeta in Hten. unfold feed_all in Hten.
    destruct Hten as (Hr & Hc' & Hmn & Hmx).
    set (s10 := fold_left feed (repeat Report_success 10) s) in *.
    pose proof (IH s10 ltac:(lia) ltac:(lia)) as IH'. cbv zeta in IH'. unfold feed_all in IH'.
    destruct IH' as (IHr & IHc & IHmn & IHmx).
    rewrite IHr, IHc, IHmn, IHmx, Hr, Hmn, Hmx. repeat split. lia.
Qed.

(** X: how the feedback adds up: [n] rate-limit errors in a row leave the
    rate at [max(min_rate, rate // 2^n)], and [10 n] successes in a row,
    counted from a reset counter, leave it at [min(max_rate, rate + n)]
    with the counter reset. *)
Theorem feedback_closed_forms (s : AdaptiveRateLimiter) (n : nat) :
  0 <= min_rate s -> min_rate s <= rate (base s) <= max_rate s ->
  rate (base (feed_all s (repeat Report_rate_limit_error n)))
    = Z.max (min_rate s) (rate (base s) / 2 ^ Z.of_nat n)
  /\ (success_count s = 0 ->
      rate (base (feed_all s (repeat Report_success (10 * n))))
        = Z.min (max_rate s) (rate (base s) + Z.of_nat n)
      /\ success_count (feed_all s (repeat Report_success (10 * n))) = 0).
Proof.
  intros Hmn Hr. split.
  - apply (errors_closed_form n s). lia.
  - intros Hc. destruct (successes_closed_form n s Hc ltac:(lia)) as (H1 & H2 & _).
    split; assumption.
Qed.

Lemma feedback_closed_forms_witness :
  let s := AdaptiveRateLimiter_init 10 1 50 0 in
  rate (base (feed_all s (repeat Report_rate_limit_error 2)))
    = Z.max (min_rate s) (rate (base s) / 2 ^ Z.of_nat 2)
  /\ (success_count s = 0 ->
      rate (base (feed_all s (repeat Report_success (10 * 2))))
        = Z.min (max_rate s) (rate (base s) + Z.of_nat 2)
      /\ success_count (feed_all s (repeat Report_success (10 * 2))) = 0).
Proof.
  intros s. apply (feedback_closed_forms s 2); cbn; lia.
Defined.

Section adaptive_invariant.
Import adaptive_limiter.
Local Open Scope Q_scope.






End adaptive_invariant.
End rate_limiter_more.

(** ** More on the reconciliation *)
Section sync_more.
Import python orm sync_log product_sync sync_service sync_entry product_checks.

Lemma search_find_by (name : string) (value : pyval) (s : env) :
  search name value s = (Ok (find_by name value (cr s)), s).
Proof. reflexivity. Qed.

Lemma prepare_raise_unchanged (rt : runtime) (ext : gmap string json) (s s1 : env) (e : exn) :
  _prepare_values_from_external rt ext s = (Raise e, s1) -> s1 = s.
Proof.
  unfold _prepare_values_from_external, mbind, M_bind, bind, lift.
  destruct (py_float rt (dict_get ext "list_price" (JFloat 0))) as [e1|lp].
  { unfold raise. intros H. congruence. }
  destruct (py_float rt (dict_get ext "standard_price" (JFloat 0))) as [e2|sp].
  { unfold raise, ret. intros H. congruence. }
  unfold ret, Datetime_now, mret, M_ret, ret. intros H. discriminate H.
Qed.

Lemma write_pair (pid : Z) (values : gmap string pyval) (s : env) :
  write pid values s = (Ok tt, snd (write pid values s)).
Proof. reflexivity. Qed.

Lemma mark_pair (rt : runtime) (pid : Z) (s : env) :
  mark_as_synced rt pid s = (Ok tt, snd (mark_as_synced rt pid s)).
Proof. reflexivity. Qed.

Lemma create_pair (values : gmap string pyval) (s : env) :
  create values s = (Ok (next_id s), snd (create values s)).
Proof. reflexivity. Qed.

Lemma log_success_pair (op : operation) (p : option Z) (eid : string) (sku : json)
    (batch : string) (s : env) :
  log_success op p eid sku batch s = (Ok tt, with_log s (mkLog op St_success p eid sku batch)).
Proof. reflexivity. Qed.

Lemma log_error_pair (op : operation) (eid : string) (sku : json) (batch : string) (s : env) :
  log_error op eid sku batch s = (Ok tt, with_log s (mkLog Op_error St_error None eid sku batch)).
Proof. reflexivity. Qed.

Lemma bind_ok {A B : Type} (m : M A) (k : A -> M B) (s s1 : env) (a : A) :
  m s = (Ok a, s1) -> mbind k m s = k a s1.
Proof. intros H. unfold mbind, M_bind, bind. rewrite H. reflexivity. Qed.

Lemma bind_raise {A B : Type} (m : M A) (k : A -> M B) (s s1 : env) (e : exn) :
  m s = (Raise e, s1) -> mbind k m s = (Raise e, s1).
Proof. intros H. unfold mbind, M_bind, bind. rewrite H. reflexivity. Qed.

Lemma search_by_external_id_run (eid : string) (s : env) :
  search_by_external_id eid s = (Ok (find_by "external_id" (PJson (JStr eid)) (cr s)), s).
Proof. reflexivity. Qed.

Lemma search_by_sku_run (sku : json) (s : env) :
  search_by_sku sku s =
  (Ok (match find_by "external_sku" (PJson sku) (cr s) with
       | Some p => Some p
       | None => find_by "default_code" (PJson sku) (cr s)
       end), s).
Proof.
  unfold search_by_sku. rewrite (bind_ok _ _ s s _ (search_find_by _ _ s)).
  destruct (find_by "external_sku" (PJson sku) (cr s)); reflexivity.
Qed.

Lemma update_full_eval (rt : runtime) (p : Z) (ext : gmap string json) (s : env) :
  update_from_external rt p ext s =
  match _prepare_values_from_external rt ext s with
  | (Raise e, s1) => (Raise e, s1)
  | (Ok values, s0) =>
    if existsb (fun kv : string * pyval => negb (py_eq (read (cr s0) p kv.1) kv.2))
               (map_to_list values)
    then (Ok true, snd (write p values s0))
    else (Ok false, s0)
  end.
Proof.
  unfold update_from_external.
  destruct (_prepare_values_from_external rt ext s) as [[values|e] s0] eqn:Hp.
  - rewrite (bind_ok _ _ _ _ _ Hp).
    rewrite (bind_ok get_db _ s0 s0 (cr s0) eq_refl).
    destruct (existsb _ (map_to_list values)); [|reflexivity].
    rewrite (bind_ok _ _ _ _ _ (write_pair p values s0)). reflexivity.
  - rewrite (bind_raise _ _ _ _ _ Hp). reflexivity.
Qed.

Lemma create_full_eval (rt : runtime) (ext : gmap string json) (s : env) :
  create_from_external rt ext s =
  match _prepare_values_from_external rt ext s with
  | (Raise e, s1) => (Raise e, s1)
  | (Ok values, s0) =>
    (Ok (next_id s0), snd (create (<["sync_status" := PJson (JStr "synced")]> values) s0))
  end.
Proof.
  unfold create_from_external.
  destruct (_prepare_values_from_external rt ext s) as [[values|e] s0] eqn:Hp.
  - rewrite (bind_ok _ _ _ _ _ Hp). cbv zeta. apply create_pair.
  - rewrite (bind_raise _ _ _ _ _ Hp). reflexivity.
Qed.

(** What [_sync_single_product] does with a record that passes the
    validation, outside a dry run. *)
Lemma sync_single_eval (rt : runtime) (ext : gmap string json) (batch : string) (s : env) :
  missing_required rt ext = false ->
  _sync_single_product rt ext batch false s =
  match _prepare_values_from_external rt ext s with
  | (Raise e, _) => (Raise e, s)
  | (Ok values, s0) =>
    match resolve rt ext (cr s) with
    | Some p =>
      if existsb (fun kv : string * pyval => negb (py_eq (read (cr s) p kv.1) kv.2))
                 (map_to_list values)
      then (Ok (mkResult Op_update (Some p)),
            with_log (snd (mark_as_synced rt p (snd (write p values s0))))
                     (success_row rt ext Op_update p batch))
      else (Ok (mkResult Op_skip (Some p)),
            with_log s0 (success_row rt ext Op_skip p batch))
    | None =>
      (Ok (mkResult Op_create (Some (next_id s))),
       with_log (snd (create (<["sync_status" := PJson (JStr "synced")]> values) s0))
                (success_row rt ext Op_create (next_id s) batch))
    end
  end.
Proof.
  intros Hvalid. unfold missing_required in Hvalid.
  unfold _sync_single_product. cbv zeta. rewrite Hvalid.
  rewrite (bind_ok _ _ _ _ _ (search_by_external_id_run _ s)).
  assert (Hres : (match find_by "external_id"
                          (PJson (JStr (py_str rt (dict_get ext "id" (JStr ""))))) (cr s) with
                  | Some p => mret (Some p)
                  | None => search_by_sku (dict_get ext "sku" (JStr ""))
                  end) s = (Ok (resolve rt ext (cr s)), s)).
  { unfold resolve. cbv zeta.
    destruct (find_by "external_id" _ (cr s)); [reflexivity|]. apply search_by_sku_run. }
  rewrite (bind_ok _ _ _ _ _ Hres). clear Hres.
  destruct (resolve rt ext (cr s)) as [p|].
  - assert (Hbody :
      (has_changes ← update_from_external rt p ext;
       if has_changes : bool
       then mark_as_synced rt p;; mret (mkResult Op_update (Some p))
       else mret (mkResult Op_skip (Some p))) s =
      match _prepare_values_from_external rt ext s with
      | (Raise e, _) => (Raise e, s)
      | (Ok values, s0) =>
        if existsb (fun kv : string * pyval => negb (py_eq (read (cr s) p kv.1) kv.2))
                   (map_to_list values)
        then (Ok (mkResult Op_update (Some p)),
              snd (mark_as_synced rt p (snd (write p values s0))))
        else (Ok (mkResult Op_skip (Some p)), s0)
      end).
    { pose proof (update_full_eval rt p ext s) as Hupd.
      destruct (_prepare_values_from_external rt ext s) as [[values|e] s0] eqn:Hp.
      - destruct (prepare_run _ _ _ _ _ Hp) as (lp & sp & _ & _ & _ & Hs0).
        assert (Hcr : cr s0 = cr s) by (rewrite Hs0; reflexivity).
        rewrite Hcr in Hupd.
        destruct (existsb _ (map_to_list values)).
        + rewrite (bind_ok _ _ _ _ _ Hupd).
          rewrite (bind_ok _ _ _ _ _ (mark_pair rt p _)). reflexivity.
        + rewrite (bind_ok _ _ _ _ _ Hupd). reflexivity.
      - apply prepare_raise_unchanged in Hp. subst s0.
        rewrite (bind_raise _ _ _ _ _ Hupd). reflexivity. }
    destruct (_prepare_values_from_external rt ext s) as [[values|e] s0].
    + destruct (existsb _ (map_to_list values)).
      * rewrite (bind_ok _ _ _ _ _ Hbody). cbn [res_operation res_product].
        rewrite (bind_ok _ _ _ _ _ (log_success_pair _ _ _ _ _ _)). reflexivity.
      * rewrite (bind_ok _ _ _ _ _ Hbody). cbn [res_operation res_product].
        rewrite (bind_ok _ _ _ _ _ (log_success_pair _ _ _ _ _ _)). reflexivity.
    + rewrite (bind_raise _ _ _ _ _ Hbody). reflexivity.
  - assert (Hbody :
      (product ← create_from_external rt ext; mret (mkResult Op_create (Some product))) s =
      match _prepare_values_from_external rt ext s with
      | (Raise e, _) => (Raise e, s)
      | (Ok values, s0) =>
        (Ok (mkResult Op_create (Some (next_id s))),
         snd (create (<["sync_status" := PJson (JStr "synced")]> values) s0))
      end).
    { pose proof (create_full_eval rt ext s) as Hcre.
      destruct (_prepare_values_from_external rt ext s) as [[values|e] s0] eqn:Hp.
      - destruct (prepare_run _ _ _ _ _ Hp) as (lp & sp & _ & _ & _ & Hs0).
        assert (Hid : next_id s0 = next_id s) by (rewrite Hs0; reflexivity).
        rewrite Hid in Hcre. rewrite (bind_ok _ _ _ _ _ Hcre). reflexivity.
      - apply prepare_raise_unchanged in Hp. subst s0.
        rewrite (bind_raise _ _ _ _ _ Hcre). reflexivity. }
    destruct (_prepare_values_from_external rt ext s) as [[values|e] s0].
    + rewrite (bind_ok _ _ _ _ _ Hbody). cbn [res_operation res_product].
      rewrite (bind_ok _ _ _ _ _ (log_success_pair _ _ _ _ _ _)). reflexivity.
    + rewrite (bind_raise _ _ _ _ _ Hbody). reflexivity.
Qed.

Lemma try_ok {A : Type} (m : M A) (h : exn -> M A) (s s1 : env) (a : A) :
  m s = (Ok a, s1) -> try_except m h s = (Ok a, s1).
Proof. intros H. unfold try_except. rewrite H. reflexivity. Qed.

Lemma try_raise {A : Type} (m : M A) (h : exn -> M A) (s s1 : env) (e : exn) :
  m s = (Raise e, s1) -> try_except m h s = h e s1.
Proof. intros H. unfold try_except. rewrite H. reflexivity. Qed.

Lemma map_id_patch (pid : Z) (values : gmap string pyval) (l : list product) :
  List.map id (List.map (patch pid values) l) = List.map id l.
Proof.
  induction l as [|q l IH]; [reflexivity|].
  cbn [List.map]. rewrite IH. f_equal. unfold patch. destruct (id q =? pid); reflexivity.
Qed.

Lemma missing_required_invalid (rt : runtime) (ext : gmap string json) (batch : string)
    (dry_run : bool) (s : env) :
  missing_required rt ext = true ->
  _sync_single_product rt ext batch dry_run s = (Raise ValueError, s).
Proof.
  intros H. apply sync_single_invalid. unfold missing_required in H.
  apply orb_true_iff in H as [H|H].
  - left. apply String.eqb_eq. exact H.
  - right. apply negb_true_iff. exact H.
Qed.

(** The outcome of one record outside a dry run: either it raises and
    nothing was written, or it logs one success row for the product it
    created, updated or found unchanged. *)
Lemma sync_single_outcome (rt : runtime) (ext : gmap string json) (batch : string) (s : env) :
  match _sync_single_product rt ext batch false s with
  | (Raise e, s') => s' = s
  | (Ok r, s') =>
    exists p,
      res_product r = Some p
      /\ logs (cr s') = logs (cr s) ++ [success_row rt ext (res_operation r) p batch]
      /\ committed s' = committed s
      /\ match res_operation r with
         | Op_create =>
             resolve rt ext (cr s) = None /\ p = next_id s
             /\ exists fs, products (cr s') = products (cr s) ++ [mkProduct p fs]
         | Op_update =>
             resolve rt ext (cr s) = Some p
             /\ List.map id (products (cr s')) = List.map id (products (cr s))
         | Op_skip =>
             resolve rt ext (cr s) = Some p /\ products (cr s') = products (cr s)
         | Op_delete | Op_error => False
         end
  end.
Proof.
  destruct (missing_required rt ext) eqn:Hvalid.
  { rewrite (missing_required_invalid rt ext batch false s Hvalid). reflexivity. }
  rewrite (sync_single_eval rt ext batch s Hvalid).
  destruct (_prepare_values_from_external rt ext s) as [[values|e] s0] eqn:Hp; [|reflexivity].
  destruct (prepare_run _ _ _ _ _ Hp) as (lp & sp & _ & _ & _ & Hs0).
  assert (Hcr : cr s0 = cr s) by (rewrite Hs0; reflexivity).
  assert (Hco : committed s0 = committed s) by (rewrite Hs0; reflexivity).
  assert (Hid : next_id s0 = next_id s) by (rewrite Hs0; reflexivity).
  clear Hp Hs0.
  destruct (resolve rt ext (cr s)) as [p|].
  - destruct (existsb _ (map_to_list values)).
    + exists p. cbn [res_product res_operation]. split; [reflexivity|].
      unfold mark_as_synced, mbind, M_bind, bind, Datetime_now. rewrite !write_run.
      cbn [snd with_log cr logs products committed]. rewrite Hcr, Hco.
      repeat split. rewrite !map_id_patch. reflexivity.
    + exists p. cbn [res_product res_operation with_log cr logs products committed].
      rewrite Hcr, Hco. repeat split.
  - exists (next_id s). cbn [res_product res_operation]. split; [reflexivity|].
    unfold create. cbn [snd with_log cr logs products committed]. rewrite Hcr, Hco, Hid.
    repeat split. eexists. reflexivity.
Qed.

(** In a dry run a record is reported as an update when it resolves to a
    product and as a creation otherwise; it is never reported as a skip. *)
Lemma dry_sync_single_eval (rt : runtime) (ext : gmap string json) (batch : string) (s : env) :
  _sync_single_product rt ext batch true s =
  if missing_required rt ext then (Raise ValueError, s)
  else match resolve rt ext (cr s) with
       | Some p => (Ok (mkResult Op_update (Some p)), s)
       | None => (Ok (mkResult Op_create None), s)
       end.
Proof.
  destruct (missing_required rt ext) eqn:Hvalid.
  { apply missing_required_invalid, Hvalid. }
  unfold missing_required in Hvalid.
  unfold _sync_single_product. cbv zeta. rewrite Hvalid.
  rewrite (bind_ok _ _ _ _ _ (search_by_external_id_run _ s)).
  assert (Hres : (match find_by "external_id"
                          (PJson (JStr (py_str rt (dict_get ext "id" (JStr ""))))) (cr s) with
                  | Some p => mret (Some p)
                  | None => search_by_sku (dict_get ext "sku" (JStr ""))
                  end) s = (Ok (resolve rt ext (cr s)), s)).
  { unfold resolve. cbv zeta.
    destruct (find_by "external_id" _ (cr s)); [reflexivity|]. apply search_by_sku_run. }
  rewrite (bind_ok _ _ _ _ _ Hres).
  destruct (resolve rt ext (cr s)); reflexivity.
Qed.

(** *** The loop over the records *)

(** The [try] statement of the loop never raises: what the record raises
    is counted and, outside a dry run, logged. *)
Lemma record_try_eval (rt : runtime) (batch : string) (dry_run : bool)
    (d : gmap string json) (sm : summary) (s : env) :
  try_except
    (result ← _sync_single_product rt d batch dry_run;
     lift (bump (res_operation result) sm))
    (fun e =>
       let sm := add_error sm in
       (if dry_run then mret tt
        else log_error Op_error (py_str rt (dict_get d "id" (JStr "")))
               (dict_get d "sku" (JStr "")) batch);;
       mret sm) s =
  match _sync_single_product rt d batch dry_run s with
  | (Ok res, s2) =>
    match bump (res_operation res) sm with
    | inr sm' => (Ok sm', s2)
    | inl _ => (Ok (add_error sm), if dry_run then s2 else with_log s2 (error_row rt d batch))
    end
  | (Raise _, s2) => (Ok (add_error sm), if dry_run then s2 else with_log s2 (error_row rt d batch))
  end.
Proof.
  assert (Hh : forall (e : exn) (s2 : env),
    (fun e0 : exn =>
       let sm0 := add_error sm in
       (if dry_run then mret tt
        else log_error Op_error (py_str rt (dict_get d "id" (JStr "")))
               (dict_get d "sku" (JStr "")) batch);;
       mret sm0) e s2 =
    (Ok (add_error sm), if dry_run then s2 else with_log s2 (error_row rt d batch))).
  { intros e s2. cbv beta zeta. destruct dry_run.
    - reflexivity.
    - rewrite (bind_ok _ _ _ _ _ (log_error_pair _ _ _ _ _)). reflexivity. }
  destruct (_sync_single_product rt d batch dry_run s) as [[res|e] s2] eqn:Hs.
  - destruct (bump (res_operation res) sm) as [e|sm'] eqn:Hb.
    + rewrite (try_raise _ _ s s2 e); [apply (Hh e)|].
      rewrite (bind_ok _ _ _ _ _ Hs), Hb. reflexivity.
    + apply try_ok. rewrite (bind_ok _ _ _ _ _ Hs), Hb. reflexivity.
  - rewrite (try_raise _ _ s s2 e); [apply (Hh e)|].
    apply bind_raise. exact Hs.
Qed.

Lemma process_one_eval (rt : runtime) (batch : string) (dry_run : bool) (rate_limit : Z)
    (d : gmap string json) (sm : summary) (s : env) (sm1 : summary) (s1 : env) :
  process_one rt batch dry_run rate_limit (Obj d) sm s = (Ok sm1, s1) ->
  rate_limit <> 0
  /\ match _sync_single_product rt d batch dry_run s with
     | (Ok res, s2) =>
       match bump (res_operation res) sm with
       | inr sm' => sm1 = sm' /\ s1 = s2
       | inl _ => sm1 = add_error sm
                  /\ s1 = (if dry_run then s2 else with_log s2 (error_row rt d batch))
       end
     | (Raise _, s2) =>
       sm1 = add_error sm /\ s1 = (if dry_run then s2 else with_log s2 (error_row rt d batch))
     end.
Proof.
  unfold process_one. rewrite (bind_ok _ _ s s d eq_refl).
  pose proof (record_try_eval rt batch dry_run d sm s) as Htry.
  destruct (_sync_single_product rt d batch dry_run s) as [[res|e] s2].
  - destruct (bump (res_operation res) sm) as [e|sm'];
      rewrite (bind_ok _ _ _ _ _ Htry); unfold rate_limiter_wait;
      destruct (Z.eqb_spec rate_limit 0) as [Hz|Hnz];
      try (intros H; discriminate H);
      intros H; apply Ok_pair_inj in H as [<- <-]; repeat split; assumption.
  - rewrite (bind_ok _ _ _ _ _ Htry); unfold rate_limiter_wait;
      destruct (Z.eqb_spec rate_limit 0) as [Hz|Hnz];
      try (intros H; discriminate H);
      intros H; apply Ok_pair_inj in H as [<- <-]; repeat split; assumption.
Qed.

Lemma process_one_not_object (rt : runtime) (batch : string) (dry_run : bool) (rate_limit : Z)
    (v : json) (sm : summary) (s : env) :
  process_one rt batch dry_run rate_limit (NotObj v) sm s = (Raise AttributeError, s).
Proof. reflexivity. Qed.

Lemma bump_counts (op : operation) (sm sm' : summary) :
  bump op sm = inr sm' ->
  same_header sm sm' /\ counters sm' = counters sm + 1
  /\ errors sm' = errors sm
  /\ n_create sm' = n_create sm + (if op is Op_create then 1 else 0)
  /\ n_skip sm' = n_skip sm + (if op is Op_skip then 1 else 0)
  /\ n_update sm' = n_update sm + (if op is Op_update then 1 else 0).
Proof.
  destruct op; cbn [bump]; intros [= <-]; unfold same_header, counters; cbn;
    repeat split; lia.
Qed.

Lemma add_error_counts (sm : summary) :
  same_header sm (add_error sm) /\ counters (add_error sm) = counters sm + 1
  /\ errors (add_error sm) = errors sm + 1
  /\ n_create (add_error sm) = n_create sm
  /\ n_skip (add_error sm) = n_skip sm
  /\ n_update (add_error sm) = n_update sm.
Proof. unfold same_header, counters. cbn. repeat split; lia. Qed.

Lemma accounted_refl (batch : string) (sm : summary) (s : env) : accounted batch 0 sm s sm s.
Proof.
  unfold accounted, same_header.
  split; [repeat split|].
  split; [cbn; lia|].
  split; [lia|].
  split; [reflexivity|].
  split.
  - exists []. rewrite app_nil_r. split; [reflexivity|]. split; [reflexivity|].
    split; [constructor|cbn; lia].
  - exists []. rewrite app_nil_r. split; [reflexivity|cbn; lia].
Qed.

Lemma accounted_trans (batch : string) (n m : nat) (sm1 sm2 sm3 : summary) (s1 s2 s3 : env) :
  accounted batch n sm1 s1 sm2 s2 -> accounted batch m sm2 s2 sm3 s3 ->
  accounted batch (n + m) sm1 s1 sm3 s3.
Proof.
  intros (Hh1 & Hc1 & Hm1 & Hco1 & (rows1 & Hl1 & Hn1 & Hb1 & He1) & (new1 & Hp1 & Hk1))
         (Hh2 & Hc2 & Hm2 & Hco2 & (rows2 & Hl2 & Hn2 & Hb2 & He2) & (new2 & Hp2 & Hk2)).
  unfold accounted, same_header in *.
  destruct Hh1 as (A1 & A2 & A3 & A4 & A5), Hh2 as (B1 & B2 & B3 & B4 & B5).
  split; [repeat split; congruence|].
  split; [lia|].
  split; [lia|].
  split; [congruence|].
  split.
  - exists (rows1 ++ rows2). rewrite Hl2, Hl1, <- app_assoc.
    split; [reflexivity|]. split; [rewrite List.length_app; lia|].
    split; [apply Forall_app; split; assumption|].
    rewrite List.filter_app, List.length_app. lia.
  - exists (new1 ++ new2). rewrite Hp2, Hp1, <- app_assoc. split; [reflexivity|].
    rewrite List.length_app. lia.
Qed.

Lemma process_one_accounted (rt : runtime) (batch : string) (rate_limit : Z) (it : item)
    (sm sm1 : summary) (s s1 : env) :
  process_one rt batch false rate_limit it sm s = (Ok sm1, s1) ->
  accounted batch 1 sm s sm1 s1.
Proof.
  destruct it as [d|v].
  2:{ rewrite process_one_not_object. discriminate. }
  intros H. apply process_one_eval in H as [_ H].
  pose proof (sync_single_outcome rt d batch s) as Hout.
  destruct (_sync_single_product rt d batch false s) as [[res|e] s2].
  - destruct Hout as (p & _ & Hlogs & Hco & Hop).
    assert (Hrows : forall sm', errors sm' = errors sm ->
              exists rows, logs (cr s2) = logs (cr s) ++ rows /\ length rows = 1%nat
                /\ Forall (fun r => log_sync_batch_id r = batch) rows
                /\ Z.of_nat (length (List.filter is_error_row rows)) = errors sm' - errors sm).
    { intros sm' He. eexists. split; [exact Hlogs|]. split; [reflexivity|].
      split; [repeat constructor|]. cbn. lia. }
    destruct (res_operation res) eqn:Hopeq; try contradiction; cbn [bump] in H;
      destruct H as [-> ->]; unfold accounted, same_header, counters;
      (split; [repeat split|]); (split; [cbn; lia|]); (split; [cbn; lia|]);
      (split; [exact Hco|]); (split; [apply Hrows; reflexivity|]).
    + destruct Hop as (_ & _ & fs & Hprod). exists [p]. rewrite Hprod, List.map_app.
      split; [reflexivity|cbn; lia].
    + destruct Hop as (_ & Hprod). exists []. rewrite Hprod, app_nil_r.
      split; [reflexivity|cbn; lia].
    + destruct Hop as (_ & Hprod). exists []. rewrite Hprod, app_nil_r.
      split; [reflexivity|cbn; lia].
  - subst s2. destruct H as [-> ->]. unfold accounted, same_header, counters.
    split; [repeat split|]. split; [cbn; lia|]. split; [cbn; lia|].
    split; [reflexivity|]. split.
    + eexists. split; [reflexivity|]. split; [reflexivity|].
      split; [repeat constructor|]. cbn. lia.
    + exists []. rewrite app_nil_r. split; [reflexivity|cbn; lia].
Qed.

Lemma process_accounted (rt : runtime) (batch : string) (rate_limit : Z) (items : list item) :
  forall (sm sm' : summary) (s s' : env),
    process rt batch false rate_limit items sm s = (Ok sm', s') ->
    accounted batch (length items) sm s sm' s'.
Proof.
  induction items as [|it items IH]; intros sm sm' s s' H.
  - cbn [process] in H. apply Ok_pair_inj in H as [<- <-]. apply accounted_refl.
  - cbn [process] in H.
    destruct (process_one rt batch false rate_limit it sm s) as [[sm1|e] s1] eqn:Hone.
    + rewrite (bind_ok _ _ _ _ _ Hone) in H.
      apply (accounted_trans batch 1 (length items) sm sm1 sm' s s1 s').
      * apply (process_one_accounted rt batch rate_limit it). exact Hone.
      * apply IH. exact H.
    + rewrite (bind_raise _ _ _ _ _ Hone) in H. discriminate H.
Qed.

(** In either mode every processed record adds one to exactly one of the
    four counters; a dry run never adds to [skip]. *)
Lemma process_one_counts (rt : runtime) (batch : string) (dry_run : bool) (rate_limit : Z)
    (it : item) (sm sm1 : summary) (s s1 : env) :
  process_one rt batch dry_run rate_limit it sm s = (Ok sm1, s1) ->
  same_header sm sm1
  /\ counters sm1 = counters sm + 1
  /\ (n_create sm <= n_create sm1 /\ n_update sm <= n_update sm1
      /\ n_skip sm <= n_skip sm1 /\ errors sm <= errors sm1)
  /\ (dry_run = true -> n_skip sm1 = n_skip sm).
Proof.
  intros Hone. destruct it as [d|v].
  2:{ rewrite process_one_not_object in Hone. discriminate. }
  apply process_one_eval in Hone as [_ Hone].
  pose proof (dry_sync_single_eval rt d batch s) as Hdry.
  destruct (_sync_single_product rt d batch dry_run s) as [[res|e] s2] eqn:Hrun.
  - destruct (bump (res_operation res) sm) as [e|smb] eqn:Hb.
    + destruct Hone as [-> _].
      destruct (add_error_counts sm) as (A & B & E & C1 & C & C2).
      split; [exact A|]. split; [exact B|]. split; [lia|]. intros _. exact C.
    + destruct Hone as [-> _].
      destruct (bump_counts _ _ _ Hb) as (A & B & E & C1 & C & C2).
      split; [exact A|]. split; [exact B|].
      split; [destruct (res_operation res); lia|].
      intros Hd. rewrite C.
      rewrite Hd, Hdry in Hrun.
      destruct (missing_required rt d); [discriminate Hrun|].
      destruct (resolve rt d (cr s)); apply Ok_pair_inj in Hrun as [<- _]; cbn; lia.
  - destruct Hone as [-> _].
    destruct (add_error_counts sm) as (A & B & E & C1 & C & C2).
    split; [exact A|]. split; [exact B|]. split; [lia|]. intros _. exact C.
Qed.

Lemma process_counts (rt : runtime) (batch : string) (dry_run : bool) (rate_limit : Z)
    (items : list item) :
  forall (sm sm' : summary) (s s' : env),
    process rt batch dry_run rate_limit items sm s = (Ok sm', s') ->
    same_header sm sm'
    /\ counters sm' = counters sm + Z.of_nat (length items)
    /\ (n_create sm <= n_create sm' /\ n_update sm <= n_update sm'
        /\ n_skip sm <= n_skip sm' /\ errors sm <= errors sm')
    /\ (dry_run = true -> n_skip sm' = n_skip sm).
Proof.
  induction items as [|it items IH]; intros sm sm' s s' H.
  - cbn [process] in H. apply Ok_pair_inj in H as [<- <-].
    unfold same_header. split; [repeat split|]. split; [cbn; lia|].
    split; [lia|]. intros _. reflexivity.
  - cbn [process] in H.
    destruct (process_one rt batch dry_run rate_limit it sm s) as [[sm1|e] s1] eqn:Hone.
    2:{ rewrite (bind_raise _ _ _ _ _ Hone) in H. discriminate H. }
    rewrite (bind_ok _ _ _ _ _ Hone) in H. apply IH in H as (Hh & Hc & Hm & Hs).
    apply process_one_counts in Hone as (Hh1 & Hc1 & Hm1 & Hs1).
    unfold same_header in *.
    destruct Hh as (A1 & A2 & A3 & A4 & A5), Hh1 as (B1 & B2 & B3 & B4 & B5).
    split; [repeat split; congruence|].
    split; [cbn [length]; lia|].
    split; [lia|].
    intros Hd. rewrite (Hs Hd), (Hs1 Hd). reflexivity.
Qed.


Lemma prepare_raise_kind (rt : runtime) (ext : gmap string json) (s s1 : env) (e : exn) :
  _prepare_values_from_external rt ext s = (Raise e, s1) -> e = ValueError \/ e = TypeError.
Proof.
  assert (Hf : forall v e0, py_float rt v = inl e0 -> e0 = ValueError \/ e0 = TypeError).
  { intros v e0. destruct v as [|b|n|x|t]; cbn [py_float]; try discriminate.
    - intros [= <-]. right. reflexivity.
    - destruct (float_of_str rt t); [discriminate|]. intros [= <-]. left. reflexivity. }
  unfold _prepare_values_from_external, mbind, M_bind, bind, lift.
  destruct (py_float rt (dict_get ext "list_price" (JFloat 0))) as [e1|lp] eqn:E1.
  { intros H. cbv in H. assert (e = e1) by congruence. subst e. exact (Hf _ _ E1). }
  destruct (py_float rt (dict_get ext "standard_price" (JFloat 0))) as [e2|sp] eqn:E2.
  { intros H. cbv in H. assert (e = e2) by congruence. subst e. exact (Hf _ _ E2). }
  intros H. discriminate H.
Qed.

Lemma rate_limiter_wait_zero (s : env) :
  rate_limiter_wait 0 s = (Raise ZeroDivisionError, s).
Proof. reflexivity. Qed.

Lemma rate_limiter_wait_nonzero (rate_limit : Z) (s : env) :
  rate_limit <> 0 -> rate_limiter_wait rate_limit s = (Ok tt, s).
Proof.
  intros H. unfold rate_limiter_wait. destruct (Z.eqb_spec rate_limit 0); [contradiction|].
  reflexivity.
Qed.

Lemma sync_products_try_ok (rt : runtime) (response : api_client.result body) (rate_limit : Z)
    (batch : string) (dry_run : bool) (limit : option Z) (s s' : env) (sm : summary) :
  sync_products_try rt response rate_limit batch dry_run limit s = (Ok sm, s') ->
  rate_limit <> 0
  /\ exists items s1,
      response = api_client.Return (Some (Some items))
      /\ process rt batch dry_run rate_limit (apply_limit limit items)
            (set_total (summary_init batch) (Z.of_nat (length (apply_limit limit items)))) s
          = (Ok sm, s1)
      /\ s' = (if dry_run then s1 else mkEnv (cr s1) (cr s1) (next_id s1) (ticks s1)).
Proof.
  intros Htry. unfold sync_products_try in Htry. cbv zeta in Htry.
  destruct (Z.eq_dec rate_limit 0) as [Hz|Hnz].
  { subst rate_limit.
    rewrite (bind_raise _ _ _ _ _ (rate_limiter_wait_zero s)) in Htry. discriminate Htry. }
  split; [exact Hnz|].
  rewrite (bind_ok _ _ _ _ _ (rate_limiter_wait_nonzero rate_limit s Hnz)) in Htry.
  destruct response as [[[items|]|]|msg]; cbv iota in Htry;
    try (rewrite (bind_raise (raise _) _ s s _ eq_refl) in Htry; discriminate Htry).
  rewrite (bind_ok (mret items) _ s s items eq_refl) in Htry.
  destruct (process rt batch dry_run rate_limit (apply_limit limit items)
              (set_total (summary_init batch) (Z.of_nat (length (apply_limit limit items)))) s)
    as [[sm1|e] s1] eqn:Hproc.
  2:{ rewrite (bind_raise _ _ _ _ _ Hproc) in Htry. discriminate Htry. }
  rewrite (bind_ok _ _ _ _ _ Hproc) in Htry.
  exists items, s1. split; [reflexivity|].
  destruct dry_run; cbv iota in Htry.
  - rewrite (bind_ok (mret tt) _ s1 s1 tt eq_refl) in Htry.
    apply Ok_pair_inj in Htry as [<- <-]. split; [first [reflexivity|exact Hproc]|reflexivity].
  - rewrite (bind_ok commit _ s1 _ tt eq_refl) in Htry.
    apply Ok_pair_inj in Htry as [<- <-]. split; [first [reflexivity|exact Hproc]|reflexivity].
Qed.

Lemma sync_products_ok (rt : runtime) (response : api_client.result body) (rate_limit : Z)
    (batch : string) (dry_run : bool) (limit : option Z) (s s' : env) (sm : summary) :
  sync_products rt response rate_limit batch dry_run limit s = (Ok sm, s') ->
  sync_products_try rt response rate_limit batch dry_run limit s = (Ok sm, s').
Proof.
  unfold sync_products.
  destruct (sync_products_try rt response rate_limit batch dry_run limit s) as [[sm0|e] s0] eqn:Htry.
  - rewrite (try_ok _ _ _ _ _ Htry). exact (fun H => H).
  - rewrite (try_raise _ _ _ _ _ Htry).
    destruct dry_run; intros H; discriminate H.
Qed.

(** X16. A dry run of [sync_products] leaves the environment exactly as it
    found it, products, log rows, committed rows, identifier sequence and
    clock readings included, whatever the response and whether the run
    returns or raises. *)
Theorem dry_run_changes_nothing (rt : runtime) (response : api_client.result body)
    (rate_limit : Z) (batch : string) (limit : option Z) (s : env) :
  snd (sync_products rt response rate_limit batch true limit s) = s.
Proof.
  unfold sync_products.
  pose proof (dry_try_unchanged rt response rate_limit batch limit s) as H.
  unfold unchanged in H.
  destruct (sync_products_try rt response rate_limit batch true limit s) as [[sm|e] s1] eqn:Htry;
    cbn [snd] in H; subst s1.
  - rewrite (try_ok _ _ _ _ _ Htry). reflexivity.
  - rewrite (try_raise _ _ _ _ _ Htry). reflexivity.
Qed.



(** X18. When a run of [sync_products] outside a dry run returns, the
    transaction is committed; it added one log row per processed record,
    all tagged with the batch identifier, as many of them error rows as the
    summary counts errors; the products there were are all still there, in
    the same order, followed by as many new ones as the summary counts
    creations. *)
Theorem sync_products_effects (rt : runtime) (response : api_client.result body)
    (rate_limit : Z) (batch : string) (limit : option Z) (s s' : env) (sm : summary) :
  sync_products rt response rate_limit batch false limit s = (Ok sm, s') ->
  committed s' = cr s'
  /\ (exists rows,
        logs (cr s') = logs (cr s) ++ rows
        /\ Z.of_nat (length rows) = total sm
        /\ Forall (fun r => log_sync_batch_id r = batch) rows
        /\ Z.of_nat (length (List.filter is_error_row rows)) = errors sm)
  /\ (exists new,
        List.map id (products (cr s')) = List.map id (products (cr s)) ++ new
        /\ Z.of_nat (length new) = n_create sm).
Proof.
  intros H. apply sync_products_ok, sync_products_try_ok in H
    as (_ & items & s1 & -> & Hproc & ->).
  pose proof (process_counts _ _ _ _ _ _ _ _ _ Hproc) as ((Htot & _) & _).
  apply process_accounted in Hproc
    as (_ & _ & _ & _ & (rows & Hl & Hn & Hb & He) & (new & Hp & Hk)).
  cbn in Htot, He, Hk. cbn [cr committed].
  split; [reflexivity|]. split.
  - exists rows. split; [exact Hl|]. split; [rewrite Hn, Htot; reflexivity|].
    split; [exact Hb|]. lia.
  - exists new. split; [exact Hp|]. lia.
Qed.

Lemma sync_products_effects_witness :
  let rt := host (fun _ => 0) in
  let items := [Obj {[ "id" := JInt 1; "sku" := JStr "A"; "name" := JStr "P" ]};
                Obj {[ "id" := JInt 7; "name" := JStr "no sku" ]}] in
  exists sm s',
    sync_products rt (api_client.Return (Some (Some items))) 10 "run-1" false None empty_env
      = (Ok sm, s')
    /\ committed s' = cr s'
    /\ (exists rows,
          logs (cr s') = logs (cr empty_env) ++ rows
          /\ Z.of_nat (length rows) = total sm
          /\ Forall (fun r => log_sync_batch_id r = "run-1") rows
          /\ Z.of_nat (length (List.filter is_error_row rows)) = errors sm)
    /\ (exists new,
          List.map id (products (cr s')) = List.map id (products (cr empty_env)) ++ new
          /\ Z.of_nat (length new) = n_create sm).
Proof.
  intros rt items. eexists. eexists. split.
  - vm_compute. reflexivity.
  - eapply (sync_products_effects rt (api_client.Return (Some (Some items))) 10 "run-1" None
              empty_env).
    vm_compute. reflexivity.
Defined.

(** *** A created record is found again *)

Lemma json_eq_refl (v : json) : json_eq v v = true.
Proof.
  destruct v as [|b|n|x|t]; cbn [json_eq numeric]; try reflexivity;
    try (apply Qeq_bool_iff; reflexivity).
  apply String.eqb_refl.
Qed.

Lemma py_eq_refl (v : pyval) : py_eq v v = true.
Proof. destruct v as [j|t]; cbn [py_eq]; [apply json_eq_refl|apply Z.eqb_refl]. Qed.


Lemma find_by_None (name : string) (value : pyval) (d : database) :
  find_by name value d = None ->
  List.find (fun p => match fields p !! name with
                      | Some v => py_eq v value
                      | None => false
                      end) (products d) = None.
Proof. unfold find_by. destruct (List.find _ (products d)); [discriminate|reflexivity]. Qed.

Lemma resolve_None (rt : runtime) (ext : gmap string json) (d : database) :
  resolve rt ext d = None ->
  find_by "external_id" (PJson (JStr (py_str rt (dict_get ext "id" (JStr ""))))) d = None
  /\ find_by "external_sku" (PJson (dict_get ext "sku" (JStr ""))) d = None
  /\ find_by "default_code" (PJson (dict_get ext "sku" (JStr ""))) d = None.
Proof.
  unfold resolve. cbv zeta.
  destruct (find_by "external_id" _ d); [discriminate|].
  destruct (find_by "external_sku" _ d); [discriminate|].
  intros H. repeat split. exact H.
Qed.






End sync_more.

(** ** The decision between create, update and skip *)
Section sync_decision.
Import python orm sync_log product_sync sync_service sync_entry product_checks.

Lemma resolve_None_all (rt : runtime) (ext : gmap string json) (d : database) (q : product) :
  resolve rt ext d = None ->
  In q (products d) ->
  fields q !! "external_id" <> Some (PJson (JStr (py_str rt (dict_get ext "id" (JStr "")))))
  /\ fields q !! "external_sku" <> Some (PJson (dict_get ext "sku" (JStr "")))
  /\ fields q !! "default_code" <> Some (PJson (dict_get ext "sku" (JStr ""))).
Proof.
  intros Hres Hq. apply resolve_None in Hres as (H1 & H2 & H3).
  apply find_by_None in H1, H2, H3.
  pose proof (List.find_none _ _ H1 q Hq) as F1.
  pose proof (List.find_none _ _ H2 q Hq) as F2.
  pose proof (List.find_none _ _ H3 q Hq) as F3.
  cbv beta in F1, F2, F3.
  repeat split; intros E.
  - rewrite E, py_eq_refl in F1. discriminate F1.
  - rewrite E, py_eq_refl in F2. discriminate F2.
  - rewrite E, py_eq_refl in F3. discriminate F3.
Qed.

(** *** A record submitted again *)



(** *** The single-record entry point *)

(** *** The lookups and the marks of models/product_sync.py *)

Lemma py_eq_str (v : pyval) (t : string) :
  py_eq v (PJson (JStr t)) = true <-> v = PJson (JStr t).
Proof.
  split.
  - destruct v as [[|b|n|x|u]|d]; cbn; try discriminate.
    intros H. apply String.eqb_eq in H. subst u. reflexivity.
  - intros ->. apply py_eq_refl.
Qed.

Lemma find_by_spec (name : string) (t : string) (d : database) :
  match find_by name (PJson (JStr t)) d with
  | Some p => exists q, In q (products d) /\ id q = p
                        /\ fields q !! name = Some (PJson (JStr t))
  | None => forall q, In q (products d) -> fields q !! name <> Some (PJson (JStr t))
  end.
Proof.
  unfold find_by.
  destruct (List.find _ (products d)) as [q|] eqn:E; cbn [option_map].
  - apply List.find_some in E as [Hin Hq]. exists q. split; [exact Hin|]. split; [reflexivity|].
    destruct (fields q !! name) as [v|]; [|discriminate Hq].
    apply py_eq_str in Hq. subst v. reflexivity.
  - intros q Hin Hq. pose proof (List.find_none _ _ E q Hin) as Hno. cbv beta in Hno.
    rewrite Hq, py_eq_refl in Hno. discriminate Hno.
Qed.

Lemma read_patch_other (pid q : Z) (values : gmap string pyval) (l : list product)
    (lg : list log_entry) (name : string) :
  q <> pid ->
  read (mkDatabase (List.map (patch pid values) l) lg) q name = read (mkDatabase l lg) q name.
Proof.
  intros Hne. unfold read, browse. cbn [products].
  induction l as [|a l IH]; [reflexivity|].
  cbn [List.map List.find]. destruct (id a =? pid) eqn:E.
  - replace (patch pid values a) with (mkProduct (id a) (values ∪ fields a))
      by (unfold patch; rewrite E; reflexivity).
    cbn [id]. apply Z.eqb_eq in E.
    destruct (Z.eqb_spec (id a) q) as [Eq|Eq]; [congruence|exact IH].
  - replace (patch pid values a) with a by (unfold patch; rewrite E; reflexivity).
    destruct (id a =? q); [reflexivity|exact IH].
Qed.

Lemma marks_lookup (a b c : pyval) (name : string) :
  ({[ "sync_status" := a; "last_sync_date" := b; "sync_error_message" := c ]}
     : gmap string pyval) !! name =
  if String.eqb name "sync_status" then Some a
  else if String.eqb name "last_sync_date" then Some b
  else if String.eqb name "sync_error_message" then Some c
  else None.
Proof.
  destruct (String.eqb_spec name "sync_status") as [->|H1]; [reflexivity|].
  destruct (String.eqb_spec name "last_sync_date") as [->|H2]; [reflexivity|].
  destruct (String.eqb_spec name "sync_error_message") as [->|H3]; [reflexivity|].
  rewrite !lookup_insert_ne by congruence. apply lookup_singleton_ne. congruence.
Qed.

Lemma mark_as_error_run (rt : runtime) (p : Z) (msg : string) (s : env) :
  snd (mark_as_error rt p msg s) =
  mkEnv (mkDatabase
           (List.map (patch p {[ "sync_status" := PJson (JStr "error");
                                 "last_sync_date" := PDatetime (clock rt (ticks s));
                                 "sync_error_message" := PJson (JStr msg) ]})
                     (products (cr s)))
           (logs (cr s)))
        (committed s) (next_id s) (S (ticks s)).
Proof. reflexivity. Qed.

Lemma mark_as_synced_run (rt : runtime) (p : Z) (s : env) :
  snd (mark_as_synced rt p s) =
  mkEnv (mkDatabase
           (List.map (patch p {[ "sync_status" := PJson (JStr "synced");
                                 "last_sync_date" := PDatetime (clock rt (ticks s));
                                 "sync_error_message" := PFalse ]})
                     (products (cr s)))
           (logs (cr s)))
        (committed s) (next_id s) (S (ticks s)).
Proof. reflexivity. Qed.

Lemma browse_patch_some (pid : Z) (values : gmap string pyval) (l : list product)
    (lg : list log_entry) :
  browse (mkDatabase l lg) pid <> None ->
  browse (mkDatabase (List.map (patch pid values) l) lg) pid <> None.
Proof.
  intros H. rewrite browse_patch. destruct (browse (mkDatabase l lg) pid); [discriminate|].
  contradiction.
Qed.

(** X25. On an existing product, [mark_as_error] stores the status
    [error], the message and the clock reading; a following
    [mark_as_synced] stores [synced], clears the message and stores the
    next clock reading.  The two writes touch no other field of the
    product, no other product, no log row and nothing committed. *)
Theorem mark_as_synced_clears_the_error (rt : runtime) (p : Z) (msg : string) (s : env) :
  browse (cr s) p <> None ->
  let s1 := snd (mark_as_error rt p msg s) in
  let s2 := snd (mark_as_synced rt p s1) in
  read (cr s1) p "sync_status" = PJson (JStr "error")
  /\ read (cr s1) p "sync_error_message" = PJson (JStr msg)
  /\ read (cr s1) p "last_sync_date" = PDatetime (clock rt (ticks s))
  /\ read (cr s2) p "sync_status" = PJson (JStr "synced")
  /\ read (cr s2) p "sync_error_message" = PFalse
  /\ read (cr s2) p "last_sync_date" = PDatetime (clock rt (S (ticks s)))
  /\ (forall q name,
        q <> p \/ (name <> "sync_status" /\ name <> "last_sync_date"
                   /\ name <> "sync_error_message") ->
        read (cr s2) q name = read (cr s) q name)
  /\ List.map id (products (cr s2)) = List.map id (products (cr s))
  /\ logs (cr s2) = logs (cr s)
  /\ committed s2 = committed s.
Proof.
  intros Hp s1 s2. subst s2 s1.
  rewrite mark_as_synced_run, mark_as_error_run. cbn [cr committed products logs ticks next_id].
  destruct (cr s) as [l lg] eqn:Hcr. cbn [products logs].
  pose proof (browse_patch_some p {[ "sync_status" := PJson (JStr "error");
                                     "last_sync_date" := PDatetime (clock rt (ticks s));
                                     "sync_error_message" := PJson (JStr msg) ]} l lg Hp) as Hp1.
  assert (R1 : forall name v,
            ({[ "sync_status" := PJson (JStr "error");
                "last_sync_date" := PDatetime (clock rt (ticks s));
                "sync_error_message" := PJson (JStr msg) ]} : gmap string pyval) !! name = Some v ->
            read (mkDatabase (List.map (patch p {[ "sync_status" := PJson (JStr "error");
                                 "last_sync_date" := PDatetime (clock rt (ticks s));
                                 "sync_error_message" := PJson (JStr msg) ]}) l) lg) p name = v).
  { intros name v Hv. rewrite read_patch, Hv.
    destruct (browse (mkDatabase l lg) p); [reflexivity|contradiction]. }
  assert (R2 : forall l' name v,
            browse (mkDatabase l' lg) p <> None ->
            ({[ "sync_status" := PJson (JStr "synced");
                "last_sync_date" := PDatetime (clock rt (S (ticks s)));
                "sync_error_message" := PFalse ]} : gmap string pyval) !! name = Some v ->
            read (mkDatabase (List.map (patch p {[ "sync_status" := PJson (JStr "synced");
                                 "last_sync_date" := PDatetime (clock rt (S (ticks s)));
                                 "sync_error_message" := PFalse ]}) l') lg) p name = v).
  { intros l' name v Hb Hv. rewrite read_patch, Hv.
    destruct (browse (mkDatabase l' lg) p); [reflexivity|contradiction]. }
  split; [apply R1; rewrite marks_lookup; reflexivity|].
  split; [apply R1; rewrite marks_lookup; reflexivity|].
  split; [apply R1; rewrite marks_lookup; reflexivity|].
  split; [apply R2; [exact Hp1|rewrite marks_lookup; reflexivity]|].
  split; [apply R2; [exact Hp1|rewrite marks_lookup; reflexivity]|].
  split; [apply R2; [exact Hp1|rewrite marks_lookup; reflexivity]|].
  split.
  - intros q name [Hq|(N1 & N2 & N3)].
    + rewrite !read_patch_other by exact Hq. reflexivity.
    + destruct (Z.eq_dec q p) as [->|Hq].
      * assert (Hnone : forall a b c,
                  ({[ "sync_status" := a; "last_sync_date" := b; "sync_error_message" := c ]}
                     : gmap string pyval) !! name = None).
        { intros a b c. rewrite marks_lookup.
          destruct (String.eqb_spec name "sync_status"); [contradiction|].
          destruct (String.eqb_spec name "last_sync_date"); [contradiction|].
          destruct (String.eqb_spec name "sync_error_message"); [contradiction|reflexivity]. }
        rewrite read_patch, Hnone, read_patch, Hnone. reflexivity.
      * rewrite !read_patch_other by exact Hq. reflexivity.
  - split; [rewrite !map_id_patch; reflexivity|]. split; reflexivity.
Qed.

Lemma mark_as_synced_clears_the_error_witness :
  let rt := host (fun n => Z.of_nat n) in
  let local := mkProduct 5 {[ "name" := PJson (JStr "Local") ]} in
  let s := mkEnv (mkDatabase [local] []) (mkDatabase [local] []) 6 0 in
  let s1 := snd (mark_as_error rt 5 "boom" s) in
  let s2 := snd (mark_as_synced rt 5 s1) in
  read (cr s1) 5 "sync_status" = PJson (JStr "error")
  /\ read (cr s1) 5 "sync_error_message" = PJson (JStr "boom")
  /\ read (cr s1) 5 "last_sync_date" = PDatetime (clock rt (ticks s))
  /\ read (cr s2) 5 "sync_status" = PJson (JStr "synced")
  /\ read (cr s2) 5 "sync_error_message" = PFalse
  /\ read (cr s2) 5 "last_sync_date" = PDatetime (clock rt (S (ticks s)))
  /\ (forall q name,
        q <> 5 \/ (name <> "sync_status" /\ name <> "last_sync_date"
                   /\ name <> "sync_error_message") ->
        read (cr s2) q name = read (cr s) q name)
  /\ List.map id (products (cr s2)) = List.map id (products (cr s))
  /\ logs (cr s2) = logs (cr s)
  /\ committed s2 = committed s.
Proof.
  intros rt local s.
  apply (mark_as_synced_clears_the_error rt 5 "boom" s).
  vm_compute. discriminate.
Defined.
End sync_decision.

(** ** The health check *)
Section api_client_revised.
Import api_client api_client_calls python sync_service.

(** X: [health_check] ends.  It answers [True] only when the last request
    made received a 2xx response whose body is a JSON object with
    ["status": "healthy"]; it answers [False] whenever no attempt receives
    a 2xx response; and it raises, with the [AttributeError] of
    [response.get], only when the last request made received a 2xx body
    that is neither an object nor [null]. *)
Theorem health_check_sound (self : APIClient) (net : Z -> outcome item) :
  exists r res tr,
    _make_request self net = Some (res, tr)
    /\ health_check self net = Some r
    /\ (r = inr true ->
        exists st d text,
          res = Return (Some (Obj d))
          /\ 1 <= request_count tr <= max_retries self
          /\ net (request_count tr) = Response st (Some (Obj d)) text
          /\ 200 <= st < 300
          /\ d !! "status" = Some (JStr "healthy"))
    /\ (forall e, r = inl e ->
        e = AttributeError
        /\ exists st v text,
            1 <= request_count tr <= max_retries self
            /\ net (request_count tr) = Response st (Some (NotObj v)) text
            /\ 200 <= st < 300
            /\ v <> JNull)
    /\ ((forall j st js text,
           1 <= j <= max_retries self -> net j = Response st js text -> ~ 200 <= st < 300) ->
        r = inr false).
Proof.
  unfold health_check, _make_request.
  destruct (request_loop_total self net (Z.to_nat (max_retries self)) 0 None [] ltac:(lia))
    as (res & tr & Hrun).
  cbn [app] in Hrun. rewrite Hrun. destruct res as [payload|msg].
  2:{ exists (inr false), (Raise_APIClientError msg), tr.
      split; [reflexivity|]. split; [reflexivity|]. split; [discriminate|].
      split; [discriminate|]. reflexivity. }
  pose proof (request_loop_return_sound self net _ _ _ _ _ _ Hrun)
    as (k & st & text & Hk & Hn & H2 & Hcount).
  change (request_count []) with 0 in Hcount.
  assert (Ek : k = request_count tr) by (rewrite Hcount; ring). subst k. clear Hcount.
  assert (Hno : (forall j st0 js text0,
                   1 <= j <= max_retries self -> net j = Response st0 js text0 ->
                   ~ 200 <= st0 < 300) -> False).
  { intros Hall. apply (Hall (request_count tr) st payload text); [lia|exact Hn|exact H2]. }
  destruct payload as [[d|v]|].
  - eexists. exists (Return (Some (Obj d))), tr.
    split; [reflexivity|]. split; [reflexivity|]. split; [|split].
    + intros Hb. exists st, d, text. split; [reflexivity|]. split; [lia|].
      split; [exact Hn|]. split; [exact H2|].
      assert (Hb' : json_eq (dict_get d "status" JNull) (JStr "healthy") = true) by congruence.
      unfold dict_get in Hb'. destruct (d !! "status") as [v|]; [|discriminate Hb'].
      cbn in Hb'. destruct v as [|b0|n|x|t]; try discriminate Hb';
        try (destruct b0; discriminate Hb').
      apply String.eqb_eq in Hb'. subst t. reflexivity.
    + intros e He. discriminate He.
    + intros Hall. destruct (Hno Hall).
  - destruct v as [|b|n|x|t].
    + exists (inr false), (Return (Some (NotObj JNull))), tr.
      split; [reflexivity|]. split; [reflexivity|]. split; [discriminate|].
      split; [discriminate|]. reflexivity.
    + exists (inl AttributeError), (Return (Some (NotObj (JBool b)))), tr.
      split; [reflexivity|]. split; [reflexivity|]. split; [discriminate|]. split.
      * intros e [= <-]. split; [reflexivity|]. exists st, (JBool b), text.
        split; [lia|]. split; [exact Hn|]. split; [exact H2|discriminate].
      * intros Hall. destruct (Hno Hall).
    + exists (inl AttributeError), (Return (Some (NotObj (JInt n)))), tr.
      split; [reflexivity|]. split; [reflexivity|]. split; [discriminate|]. split.
      * intros e [= <-]. split; [reflexivity|]. exists st, (JInt n), text.
        split; [lia|]. split; [exact Hn|]. split; [exact H2|discriminate].
      * intros Hall. destruct (Hno Hall).
    + exists (inl AttributeError), (Return (Some (NotObj (JFloat x)))), tr.
      split; [reflexivity|]. split; [reflexivity|]. split; [discriminate|]. split.
      * intros e [= <-]. split; [reflexivity|]. exists st, (JFloat x), text.
        split; [lia|]. split; [exact Hn|]. split; [exact H2|discriminate].
      * intros Hall. destruct (Hno Hall).
    + exists (inl AttributeError), (Return (Some (NotObj (JStr t)))), tr.
      split; [reflexivity|]. split; [reflexivity|]. split; [discriminate|]. split.
      * intros e [= <-]. split; [reflexivity|]. exists st, (JStr t), text.
        split; [lia|]. split; [exact Hn|]. split; [exact H2|discriminate].
      * intros Hall. destruct (Hno Hall).
  - exists (inr false), (Return None), tr.
    split; [reflexivity|]. split; [reflexivity|]. split; [discriminate|].
    split; [discriminate|]. intros Hall. destruct (Hno Hall).
Qed.

Lemma health_check_sound_witness :
  let self := mkAPIClient "http://test-api:8000" 5 3 in
  let net := fun j : Z =>
    if j =? 1 then Timeout "slow"
    else Response 200 (Some (Obj {[ "status" := JStr "healthy" ]})) "" in
  health_check self net = Some (inr true)
  /\ exists r res tr,
      _make_request self net = Some (res, tr)
      /\ health_check self net = Some r
      /\ (r = inr true ->
          exists st d text,
            res = Return (Some (Obj d))
            /\ 1 <= request_count tr <= max_retries self
            /\ net (request_count tr) = Response st (Some (Obj d)) text
            /\ 200 <= st < 300
            /\ d !! "status" = Some (JStr "healthy"))
      /\ (forall e, r = inl e ->
          e = AttributeError
          /\ exists st v text,
              1 <= request_count tr <= max_retries self
              /\ net (request_count tr) = Response st (Some (NotObj v)) text
              /\ 200 <= st < 300
              /\ v <> JNull)
      /\ ((forall j st js text,
             1 <= j <= max_retries self -> net j = Response st js text -> ~ 200 <= st < 300) ->
          r = inr false).
Proof.
  intros self net. split; [vm_compute; reflexivity|].
  apply (health_check_sound self net).
Defined.
End api_client_revised.

(** ** The rate of the adaptive limiter in use *)
Section adaptive_rate.
Import rate_limiter adaptive_limiter.

Lemma refill_keeps_rate (s s1 : RateLimiter) (now : Q) :
  _refill_tokens s now = Some s1 ->
  rate s1 = rate s /\ max_tokens s1 = max_tokens s.
Proof.
  unfold _refill_tokens. cbv zeta. destruct (Qeq_bool (per_seconds s) 0); [discriminate|].
  intros [= <-]. split; reflexivity.
Qed.

Lemma step_keeps_rate (s : RateLimiter) (c : call) :
  rate (step s c) = rate s /\ max_tokens (step s c) = max_tokens s.
Proof.
  destruct c as [now now'|now|now|now]; cbn [step].
  - unfold wait_if_needed.
    destruct (_refill_tokens s now) as [s1|] eqn:E1; [|split; reflexivity].
    destruct (refill_keeps_rate _ _ _ E1) as [R1 M1].
    destruct (_wait_time s1) as [w|]; [|cbn [fst]; split; assumption].
    destruct (negb (Qle_bool w 0)); [|cbn [fst]; split; assumption].
    destruct (_refill_tokens s1 now') as [s2|] eqn:E2; [|cbn [fst]; split; assumption].
    destruct (refill_keeps_rate _ _ _ E2) as [R2 M2].
    cbn [fst set_tokens rate max_tokens]. split; congruence.
  - unfold try_acquire.
    destruct (_refill_tokens s now) as [s1|] eqn:E1; [|split; reflexivity].
    destruct (refill_keeps_rate _ _ _ E1) as [R1 M1].
    destruct (Qle_bool 1 (tokens s1)); cbn [fst set_tokens rate max_tokens]; split; assumption.
  - unfold get_tokens.
    destruct (_refill_tokens s now) as [s1|] eqn:E1; [|split; reflexivity].
    destruct (refill_keeps_rate _ _ _ E1) as [R1 M1]. cbn [fst]. split; assumption.
  - split; reflexivity.
Qed.

Lemma adaptive_step_keeps_rate (r0 mn mx : Z) (s : AdaptiveRateLimiter) (c : adaptive_call) :
  0 <= mn -> mn <= r0 <= mx ->
  initial_rate s = r0 -> adaptive_inv mn mx s ->
  (max_tokens (base s) == inject_Z (rate (base s)))%Q ->
  initial_rate (adaptive_step s c) = r0
  /\ adaptive_inv mn mx (adaptive_step s c)
  /\ (max_tokens (base (adaptive_step s c)) == inject_Z (rate (base (adaptive_step s c))))%Q.
Proof.
  intros Hmn Hr0 Hinit Hinv Hcap. destruct c as [c|f|now]; cbn [adaptive_step].
  - destruct (step_keeps_rate (base s) c) as [R M].
    destruct Hinv as (Hmin & Hmax & Hr & Hc).
    unfold adaptive_inv. cbn [with_base initial_rate min_rate max_rate base success_count].
    rewrite R, M. repeat split; try assumption; try lia.
  - split; [destruct f; cbn [feed]; unfold report_success, report_rate_limit_error; cbv zeta;
            [destruct (10 <=? _)|]; exact Hinit|].
    split; [apply feed_keeps_inv; assumption|].
    destruct f; cbn [feed].
    + unfold report_success. cbv zeta.
      cbn [with_base base success_count].
      destruct (10 <=? success_count s + 1); [reflexivity|exact Hcap].
    + reflexivity.
  - destruct Hinv as (Hmin & Hmax & Hr & Hc).
    unfold reset_to_initial, adaptive_inv. cbv zeta.
    cbn [with_base initial_rate min_rate max_rate base success_count set_last_refill set_tokens
           set_max_tokens set_rate rate max_tokens].
    rewrite Hinit. repeat split; try assumption; try lia; reflexivity.
Qed.

(** X14. An adaptive limiter used through the calls it inherits, its two
    reports and [reset_to_initial], in any order and whatever the clock
    reads: the rate stays within [[min_rate, max_rate]], the cap of the
    bucket is the current rate, and the bounds and the initial rate are
    never changed. *)
Theorem adaptive_rate_stays_in_bounds (r mn mx : Z) (now0 : Q) (calls : list adaptive_call) :
  0 <= mn -> mn <= r <= mx ->
  let s := adaptive_run (AdaptiveRateLimiter_init r mn mx now0) calls in
  mn <= rate (base s) <= mx
  /\ (max_tokens (base s) == inject_Z (rate (base s)))%Q
  /\ min_rate s = mn /\ max_rate s = mx /\ initial_rate s = r.
Proof.
  intros Hmn Hr s. subst s.
  assert (H0 : initial_rate (AdaptiveRateLimiter_init r mn mx now0) = r
               /\ adaptive_inv mn mx (AdaptiveRateLimiter_init r mn mx now0)
               /\ (max_tokens (base (AdaptiveRateLimiter_init r mn mx now0))
                   == inject_Z (rate (base (AdaptiveRateLimiter_init r mn mx now0))))%Q).
  { unfold adaptive_inv. cbn. repeat split; try lia; reflexivity. }
  revert H0. generalize (AdaptiveRateLimiter_init r mn mx now0).
  induction calls as [|c calls IH]; intros s0 (Hi & Hinv & Hcap).
  - cbn [adaptive_run fold_left]. destruct Hinv as (Hmin & Hmax & Hrate & _).
    repeat split; try assumption; lia.
  - cbn [adaptive_run fold_left]. apply IH.
    apply (adaptive_step_keeps_rate r mn mx s0 c Hmn Hr Hi Hinv Hcap).
Qed.

Lemma adaptive_rate_stays_in_bounds_witness :
  let calls := [Inherited (Wait_if_needed 0 0); Report Report_rate_limit_error;
                Inherited (Get_tokens 1); Reset_to_initial 2; Report Report_success] in
  let s := adaptive_run (AdaptiveRateLimiter_init 10 1 50 0) calls in
  1 <= rate (base s) <= 50
  /\ (max_tokens (base s) == inject_Z (rate (base s)))%Q
  /\ min_rate s = 1 /\ max_rate s = 50 /\ initial_rate s = 10.
Proof.
  intros calls. apply (adaptive_rate_stays_in_bounds 10 1 50 0 calls); lia.
Defined.
End adaptive_rate.

(** ** The token bucket in binary64 *)
Section rate_limiter_binary64_properties.
Import rate_limiter_binary64.

(** C6 fails on the code.  A limiter of 49 requests per second is built
    at clock 0 and emptied by 49 immediate [try_acquire] calls.  The next
    [wait_if_needed] finds 0 tokens, asks for a sleep of [1.0 * (1.0 / 49)]
    seconds and wakes exactly that much later.  The refill then adds
    [wait_time * 49.0], which rounds to the double just below 1, and the
    token taken without a further test leaves [-2^-53] tokens, about
    [-1.11e-16]: a negative count, under a clock that never went back. *)
Lemma wait_if_needed_overdraws_the_bucket :
  exists self emptied wait_time,
    RateLimiter_init 49 1 0 = inr self
    /\ try_acquire_times 49 self 0 = (emptied, repeat (inr true) 49)
    /\ tokens emptied = 0%float
    /\ _wait_time emptied = inr wait_time
    /\ (0 <? wait_time)%float = true
    /\ (last_refill emptied <=? 0 + wait_time)%float = true
    /\ snd (wait_if_needed emptied 0 (0 + wait_time)) = inr tt
    /\ tokens (fst (wait_if_needed emptied 0 (0 + wait_time))) = (-0x1p-53)%float
    /\ (tokens (fst (wait_if_needed emptied 0 (0 + wait_time))) <? 0)%float = true.
Proof.
  eexists. eexists. eexists.
  split; [vm_compute; reflexivity|].
  split; [vm_compute; reflexivity|].
  split; [vm_compute; reflexivity|].
  split; [vm_compute; reflexivity|].
  split; [vm_compute; reflexivity|].
  split; [vm_compute; reflexivity|].
  split; [vm_compute; reflexivity|].
  split; vm_compute; reflexivity.
Qed.

(** The same without any rounding: when the clock reads the same after the
    sleep as before it (it did not go back), the refill adds nothing and
    the token is taken all the same, leaving [-1]. *)
Lemma wait_if_needed_takes_a_token_it_has_not :
  exists self emptied,
    RateLimiter_init 1 1 0 = inr self
    /\ try_acquire self 0 = (emptied, inr true)
    /\ snd (wait_if_needed emptied 0 0) = inr tt
    /\ tokens (fst (wait_if_needed emptied 0 0)) = (-1)%float.
Proof.
  eexists. eexists.
  split; [vm_compute; reflexivity|].
  split; [vm_compute; reflexivity|].
  split; vm_compute; reflexivity.
Qed.
End rate_limiter_binary64_properties.

(** ** Revisions of the reconciliation properties *)
Section sync_revised.
Import python orm sync_log product_sync sync_service sync_entry product_checks.

(** C7 fails on the code for a record whose identifier is JSON [null]:
    [str(None)] is the text ['None'], which is not empty, so the record
    passes the validation, a product with the external identifier ['None']
    is created and logged as a success, and no error is counted.  A record
    whose SKU is [null], or which has no ["id"] key, is counted as an
    error. *)
Lemma null_id_record_is_created :
  let rt := host (fun _ => 0) in
  let run (d : gmap string json) :=
    sync_products rt (api_client.Return (Some (Some [Obj d]))) 10 "run-1" false None empty_env in
  let null_id : gmap string json := {[ "id" := JNull; "sku" := JStr "A"; "name" := JStr "P" ]} in
  let null_sku : gmap string json := {[ "id" := JInt 1; "sku" := JNull; "name" := JStr "P" ]} in
  let no_id : gmap string json := {[ "sku" := JStr "A"; "name" := JStr "P" ]} in
  fst (run null_id) = Ok (mkSummary 1 1 0 0 0 0 0 0 "run-1")
  /\ logs (cr (snd (run null_id)))
     = [mkLog Op_create St_success (Some 1) "None" (JStr "A") "run-1"]
  /\ List.map (fun p => (id p, fields p !! "external_id")) (products (cr (snd (run null_id))))
     = [(1, Some (PJson (JStr "None")))]
  /\ fst (run null_sku) = Ok (mkSummary 1 0 0 0 0 0 0 1 "run-1")
  /\ fst (run no_id) = Ok (mkSummary 1 0 0 0 0 0 0 1 "run-1").
Proof.
  intros rt run null_id null_sku no_id.
  split; [vm_compute; reflexivity|].
  split; [vm_compute; reflexivity|].
  split; [vm_compute; reflexivity|].
  split; vm_compute; reflexivity.
Qed.

Lemma prepare_price_error (rt : runtime) (ext : gmap string json) (s : env) (e : exn) :
  price_error rt ext = Some e ->
  _prepare_values_from_external rt ext s = (Raise e, s).
Proof.
  unfold price_error, _prepare_values_from_external, mbind, M_bind, bind, lift.
  destruct (py_float rt (dict_get ext "list_price" (JFloat 0))) as [e1|lp].
  { intros [= <-]. reflexivity. }
  destruct (py_float rt (dict_get ext "standard_price" (JFloat 0))) as [e2|sp].
  { intros [= <-]. reflexivity. }
  discriminate.
Qed.

(** X19. A record that passes the validation and one of whose prices
    [float()] refuses is rejected with the exception of [float()], before
    anything is written and before the clock is read: outside a dry run
    [_sync_single_product] raises it and leaves the environment as it
    found it, whether the record matches a product or not. *)
Theorem rejected_price_writes_nothing (rt : runtime) (ext : gmap string json) (batch : string)
    (s : env) (e : exn) :
  missing_required rt ext = false ->
  price_error rt ext = Some e ->
  _sync_single_product rt ext batch false s = (Raise e, s).
Proof.
  intros Hvalid Hprice.
  rewrite (sync_single_eval rt ext batch s Hvalid), (prepare_price_error rt ext s e Hprice).
  reflexivity.
Qed.

Lemma rejected_price_writes_nothing_witness :
  let rt := host (fun _ => 0) in
  let ext : gmap string json :=
    {[ "id" := JInt 1; "sku" := JStr "A"; "name" := JStr "P"; "list_price" := JStr "cheap" ]} in
  _sync_single_product rt ext "run-1" false empty_env = (Raise ValueError, empty_env).
Proof.
  intros rt ext.
  apply (rejected_price_writes_nothing rt ext "run-1" empty_env ValueError).
  - vm_compute. reflexivity.
  - vm_compute. reflexivity.
Defined.

(** *** The lookups, on a table without archived rows *)

(** X24. On a table without archived rows, where the scan is what Odoo's
    [search] returns, [search_by_sku] changes nothing; it returns a
    product whose external SKU is the one asked for when there is one,
    otherwise a product whose internal code is, and nothing only when no
    product carries the SKU in either field. *)
Theorem search_by_sku_prefers_the_external_sku (t : string) (s : env) :
  no_archived_row (cr s) ->
  exists r,
    search_by_sku (JStr t) s = (Ok r, s)
    /\ match r with
       | Some p =>
           exists q, In q (products (cr s)) /\ id q = p
             /\ (fields q !! "external_sku" = Some (PJson (JStr t))
                 \/ (fields q !! "default_code" = Some (PJson (JStr t))
                     /\ forall q', In q' (products (cr s)) ->
                          fields q' !! "external_sku" <> Some (PJson (JStr t))))
       | None =>
           forall q, In q (products (cr s)) ->
             fields q !! "external_sku" <> Some (PJson (JStr t))
             /\ fields q !! "default_code" <> Some (PJson (JStr t))
       end.
Proof.
  intros _.
  pose proof (find_by_spec "external_sku" t (cr s)) as H1.
  pose proof (find_by_spec "default_code" t (cr s)) as H2.
  unfold search_by_sku.
  rewrite (bind_ok _ _ _ _ _ (search_find_by "external_sku" (PJson (JStr t)) s)).
  destruct (find_by "external_sku" (PJson (JStr t)) (cr s)) as [p|].
  - exists (Some p). split; [reflexivity|].
    destruct H1 as (q & Hin & Hid & Hq). exists q. split; [exact Hin|]. split; [exact Hid|].
    left. exact Hq.
  - rewrite search_find_by.
    destruct (find_by "default_code" (PJson (JStr t)) (cr s)) as [p|].
    + exists (Some p). split; [reflexivity|].
      destruct H2 as (q & Hin & Hid & Hq). exists q. split; [exact Hin|]. split; [exact Hid|].
      right. split; [exact Hq|exact H1].
    + exists None. split; [reflexivity|]. intros q Hin. split; [exact (H1 q Hin)|exact (H2 q Hin)].
Qed.

Lemma search_by_sku_prefers_the_external_sku_witness :
  let by_code := mkProduct 5 {[ "name" := PJson (JStr "Local"); "default_code" := PJson (JStr "A") ]} in
  let by_sku := mkProduct 6 {[ "external_sku" := PJson (JStr "A"); "active" := PTrue ]} in
  let s := mkEnv (mkDatabase [by_code; by_sku] []) (mkDatabase [by_code; by_sku] []) 7 0 in
  search_by_sku (JStr "A") s = (Ok (Some 6), s)
  /\ exists r,
      search_by_sku (JStr "A") s = (Ok r, s)
      /\ match r with
         | Some p =>
             exists q, In q (products (cr s)) /\ id q = p
               /\ (fields q !! "external_sku" = Some (PJson (JStr "A"))
                   \/ (fields q !! "default_code" = Some (PJson (JStr "A"))
                       /\ forall q', In q' (products (cr s)) ->
                            fields q' !! "external_sku" <> Some (PJson (JStr "A"))))
         | None =>
             forall q, In q (products (cr s)) ->
               fields q !! "external_sku" <> Some (PJson (JStr "A"))
               /\ fields q !! "default_code" <> Some (PJson (JStr "A"))
         end.
Proof.
  intros by_code by_sku s. split; [vm_compute; reflexivity|].
  apply (search_by_sku_prefers_the_external_sku "A" s).
  repeat constructor.
Defined.

(** X21. On a table without archived rows, what [_sync_single_product]
    does with a record it accepts is decided by the match alone: a record
    that resolves to a product is updated or (outside a dry run) skipped
    and reported under that product; a record that resolves to none is
    created, and then no product carried its external identifier or its
    SKU, as external SKU or as internal code. *)
Theorem operation_follows_the_match (rt : runtime) (ext : gmap string json) (batch : string)
    (dry_run : bool) (s s' : env) (r : sync_result) :
  no_archived_row (cr s) ->
  _sync_single_product rt ext batch dry_run s = (Ok r, s') ->
  match resolve rt ext (cr s) with
  | Some p =>
      (res_operation r = Op_update \/ (dry_run = false /\ res_operation r = Op_skip))
      /\ res_product r = Some p
  | None =>
      res_operation r = Op_create
      /\ res_product r = (if dry_run then None else Some (next_id s))
      /\ forall q, In q (products (cr s)) ->
           fields q !! "external_id"
             <> Some (PJson (JStr (py_str rt (dict_get ext "id" (JStr "")))))
           /\ fields q !! "external_sku" <> Some (PJson (dict_get ext "sku" (JStr "")))
           /\ fields q !! "default_code" <> Some (PJson (dict_get ext "sku" (JStr "")))
  end.
Proof.
  intros _ H. destruct dry_run.
  - rewrite dry_sync_single_eval in H.
    destruct (missing_required rt ext); [discriminate H|].
    destruct (resolve rt ext (cr s)) as [p|] eqn:Hres; apply Ok_pair_inj in H as [<- _].
    + split; [left; reflexivity|reflexivity].
    + split; [reflexivity|]. split; [reflexivity|].
      intros q Hq. exact (resolve_None_all rt ext (cr s) q Hres Hq).
  - pose proof (sync_single_outcome rt ext batch s) as Hout. rewrite H in Hout.
    destruct Hout as (p & Hp & _ & _ & Hop).
    destruct (res_operation r); try contradiction.
    + destruct Hop as (Hres & -> & _). rewrite Hres.
      split; [reflexivity|]. split; [exact Hp|].
      intros q Hq. exact (resolve_None_all rt ext (cr s) q Hres Hq).
    + destruct Hop as (Hres & _). rewrite Hres. split; [left; reflexivity|exact Hp].
    + destruct Hop as (Hres & _). rewrite Hres.
      split; [right; split; reflexivity|exact Hp].
Qed.

Lemma operation_follows_the_match_witness :
  let rt := host (fun n => Z.of_nat n) in
  let ext : gmap string json := {[ "id" := JInt 1; "sku" := JStr "A"; "name" := JStr "P" ]} in
  let local := mkProduct 5 {[ "name" := PJson (JStr "Local"); "default_code" := PJson (JStr "A") ]} in
  let s := mkEnv (mkDatabase [local] []) (mkDatabase [local] []) 6 0 in
  match resolve rt ext (cr s) with
  | Some p =>
      (res_operation (mkResult Op_update (Some 5)) = Op_update
       \/ (true = false /\ res_operation (mkResult Op_update (Some 5)) = Op_skip))
      /\ res_product (mkResult Op_update (Some 5)) = Some p
  | None =>
      res_operation (mkResult Op_update (Some 5)) = Op_create
      /\ res_product (mkResult Op_update (Some 5)) = (if true then None else Some (next_id s))
      /\ forall q, In q (products (cr s)) ->
           fields q !! "external_id"
             <> Some (PJson (JStr (py_str rt (dict_get ext "id" (JStr "")))))
           /\ fields q !! "external_sku" <> Some (PJson (dict_get ext "sku" (JStr "")))
           /\ fields q !! "default_code" <> Some (PJson (dict_get ext "sku" (JStr "")))
  end.
Proof.
  intros rt ext local s.
  apply (operation_follows_the_match rt ext "run-1" true s s (mkResult Op_update (Some 5))).
  - repeat constructor.
  - vm_compute. reflexivity.
Defined.

(** *** The single-record entry point *)

(** X23. When [sync_single_product] returns, the API returned a
    non-empty object, exactly one success row was logged for it, for the
    product reported, and the transaction is committed.  When the limiter
    or the response makes it raise (a rate of 0, an error of the API
    client, a body that is empty or not an object), it raises before
    anything is read or written and the environment is as it was. *)
Theorem sync_single_product_outcome (rt : runtime)
    (response : api_client.result item) (rate_limit : Z) (batch : string) (s : env) :
  (forall r s',
     sync_single_product rt response rate_limit batch s = (Ok r, s') ->
     committed s' = cr s'
     /\ exists d p,
         response = api_client.Return (Some (Obj d)) /\ d <> ∅
         /\ res_product r = Some p
         /\ logs (cr s') = logs (cr s) ++ [success_row rt d (res_operation r) p batch])
  /\ (rate_limit = 0 ->
      sync_single_product rt response rate_limit batch s = (Raise ZeroDivisionError, s))
  /\ (rate_limit <> 0 ->
      match response with
      | api_client.Raise_APIClientError msg =>
          sync_single_product rt response rate_limit batch s = (Raise (APIClientError msg), s)
      | api_client.Return None =>
          sync_single_product rt response rate_limit batch s = (Raise UserError, s)
      | api_client.Return (Some (NotObj v)) =>
          sync_single_product rt response rate_limit batch s
          = (Raise (if truthy v then AttributeError else UserError), s)
      | api_client.Return (Some (Obj d)) =>
          d = ∅ ->
          sync_single_product rt response rate_limit batch s = (Raise UserError, s)
      end).
Proof.
  unfold sync_single_product.
  destruct (Z.eq_dec rate_limit 0) as [->|Hnz].
  { rewrite (bind_raise _ _ _ _ _ (rate_limiter_wait_zero s)).
    split; [intros r s' H; discriminate H|]. split; [reflexivity|]. intros H. contradiction. }
  rewrite (bind_ok _ _ _ _ _ (rate_limiter_wait_nonzero rate_limit s Hnz)).
  split; [|split; [intros H; contradiction|intros _]].
  - destruct response as [[[d|v]|]|msg]; cbv iota.
    + destruct (decide (d = ∅)) as [He|Hne].
      { rewrite (bind_raise (raise UserError) _ s s _ eq_refl). intros r s' H. discriminate H. }
      rewrite (bind_ok (mret d) _ s s d eq_refl).
      pose proof (sync_single_outcome rt d batch s) as Hout.
      destruct (_sync_single_product rt d batch false s) as [[res|e] s2] eqn:Hrun.
      * rewrite (bind_ok _ _ _ _ _ Hrun).
        rewrite (bind_ok commit _ s2 _ tt eq_refl).
        unfold mret, M_ret, ret. cbv beta iota.
        intros r s' H. apply Ok_pair_inj in H as [<- <-]. cbn [committed cr].
        split; [reflexivity|].
        destruct Hout as (p & Hp & Hlogs & _ & _).
        exists d, p. split; [reflexivity|]. split; [exact Hne|]. split; [exact Hp|exact Hlogs].
      * rewrite (bind_raise _ _ _ _ _ Hrun). intros r s' H. discriminate H.
    + destruct (truthy v).
      * rewrite (bind_raise (raise AttributeError) _ s s _ eq_refl). intros r s' H. discriminate H.
      * rewrite (bind_raise (raise UserError) _ s s _ eq_refl). intros r s' H. discriminate H.
    + rewrite (bind_raise (raise UserError) _ s s _ eq_refl). intros r s' H. discriminate H.
    + rewrite (bind_raise (raise (APIClientError msg)) _ s s _ eq_refl).
      intros r s' H. discriminate H.
  - destruct response as [[[d|v]|]|msg]; cbv iota.
    + intros ->. destruct (decide ((∅ : gmap string json) = ∅)) as [_|Hne]; [|contradiction].
      rewrite (bind_raise (raise UserError) _ s s _ eq_refl). reflexivity.
    + destruct (truthy v).
      * rewrite (bind_raise (raise AttributeError) _ s s _ eq_refl). reflexivity.
      * rewrite (bind_raise (raise UserError) _ s s _ eq_refl). reflexivity.
    + rewrite (bind_raise (raise UserError) _ s s _ eq_refl). reflexivity.
    + rewrite (bind_raise (raise (APIClientError msg)) _ s s _ eq_refl). reflexivity.
Qed.

(** *** Creation, on a table without archived rows *)






End sync_revised.
